(** * slkops: the chat session controller of [main.go]

    A shallow embedding of the bubbletea [model] of [main.go] and of its
    [Update] step, with the history log ([appendToHistory],
    [navigateHistory]) and the message store (the [fetchMessagesMsg]
    branch of [Update]).

    What [main.go] calls but does not define is kept abstract: the Slack
    client and its [Message] type, the bubbles widgets ([textinput],
    [viewport]), lipgloss styles, the file system, [strconv.ParseFloat]
    and [sort.Slice].  They are the fields of two classes below; every
    statement holds for all their implementations unless it names a
    hypothesis about one of them. *)

From Stdlib Require Import ZArith List String Ascii Bool Lia Sorted.
From Stdlib Require Import Floats.SpecFloat.
From stdpp Require Import base gmap strings list pretty.

Local Open Scope Z_scope.

(* ===================================================================== *)
(** * Go basics *)
(* ===================================================================== *)

(** Go's [int] on a 64-bit platform: arithmetic wraps around. *)
Definition wrap_int (z : Z) : Z := (z + 2 ^ 63) mod 2 ^ 64 - 2 ^ 63.

Definition int_add (a b : Z) : Z := wrap_int (a + b).
Definition int_sub (a b : Z) : Z := wrap_int (a - b).

Definition max_int : Z := 2 ^ 63 - 1.

(** [len(s)] of a slice, as an [int]. *)
Definition len {A : Type} (l : list A) : Z := Z.of_nat (length l).

(** ** [strings.TrimSpace]

    Go strings are byte strings holding UTF-8.  [TrimSpace] removes the
    leading and the trailing runes for which [unicode.IsSpace] holds:
    tab, LF, VT, FF, CR, space, U+0085, U+00A0, U+1680, U+2000..U+200A,
    U+2028, U+2029, U+202F, U+205F and U+3000.  A byte that does not start
    a valid encoding decodes to U+FFFD, which is not a space. *)

Definition byte_of (c : ascii) : N := N_of_ascii c.

Definition asciiSpace (x : N) : bool :=
  ((9 <=? x) && (x <=? 13) || (x =? 32))%N.

(** U+0085 and U+00A0, encoded as C2 85 and C2 A0. *)
Definition space2 (x y : N) : bool :=
  ((x =? 194) && ((y =? 133) || (y =? 160)))%N.

(** The three-byte spaces: E1 9A 80; E2 80 80..8A, E2 80 A8, E2 80 A9,
    E2 80 AF; E2 81 9F; E3 80 80. *)
Definition space3 (x y z : N) : bool :=
  ((x =? 225) && (y =? 154) && (z =? 128)
   || (x =? 226) && (y =? 128)
      && ((128 <=? z) && (z <=? 138) || (z =? 168) || (z =? 169) || (z =? 175))
   || (x =? 226) && (y =? 129) && (z =? 159)
   || (x =? 227) && (y =? 128) && (z =? 128))%N.

(** Leading spaces, decoding forwards. *)
Fixpoint trimLeftSpace (s : list ascii) : list ascii :=
  match s with
  | [] => []
  | a :: r =>
      if asciiSpace (byte_of a) then trimLeftSpace r
      else
        match r with
        | b :: r2 =>
            if space2 (byte_of a) (byte_of b) then trimLeftSpace r2
            else
              match r2 with
              | c :: r3 =>
                  if space3 (byte_of a) (byte_of b) (byte_of c)
                  then trimLeftSpace r3
                  else s
              | [] => s
              end
        | [] => s
        end
  end.

(** Trailing spaces, decoding backwards ([utf8.DecodeLastRuneInString]);
    the argument is the string reversed, so the last byte comes first. *)
Fixpoint trimLeftSpaceRev (s : list ascii) : list ascii :=
  match s with
  | [] => []
  | c :: r =>
      if asciiSpace (byte_of c) then trimLeftSpaceRev r
      else
        match r with
        | b :: r2 =>
            if space2 (byte_of b) (byte_of c) then trimLeftSpaceRev r2
            else
              match r2 with
              | a :: r3 =>
                  if space3 (byte_of a) (byte_of b) (byte_of c)
                  then trimLeftSpaceRev r3
                  else s
              | [] => s
              end
        | [] => s
        end
  end.

Definition TrimSpace (s : string) : string :=
  string_of_list_ascii
    (rev (trimLeftSpaceRev (rev (trimLeftSpace (list_ascii_of_string s))))).

(** A string made of white space only: a sequence of encoded spaces. *)
Inductive spaceRunes : list ascii -> Prop :=
| spaces_nil : spaceRunes []
| spaces_ascii a r :
    asciiSpace (byte_of a) = true -> spaceRunes r -> spaceRunes (a :: r)
| spaces_two a b r :
    space2 (byte_of a) (byte_of b) = true -> spaceRunes r ->
    spaceRunes (a :: b :: r)
| spaces_three a b c r :
    space3 (byte_of a) (byte_of b) (byte_of c) = true -> spaceRunes r ->
    spaceRunes (a :: b :: c :: r).

Definition whitespaceOnly (s : string) : Prop :=
  spaceRunes (list_ascii_of_string s).

(** ** [time.Time]

    A [time.Time] built by [time.Unix(sec, 0)] holds the seconds since
    year 1 in an [int64] and no nanoseconds; [Before] compares them. *)

Definition Time : Type := Z.

Definition unixToInternal : Z := 62135596800.

Definition time_Unix (sec : Z) : Time := wrap_int (sec + unixToInternal).

Definition Before (t u : Time) : bool := t <? u.

(** ** [float64] to [int64]

    A [float64] is a [spec_float] of precision 53.  The conversion
    [int64(f)] truncates towards zero; when the result does not fit the
    language leaves it to the implementation, here the argument
    [unrepresentable]. *)

Definition float64 : Type := spec_float.

Definition trunc_float (f : float64) : option Z :=
  match f with
  | S754_zero _ => Some 0
  | S754_finite s m e =>
      let mag := Z.shiftl (Z.pos m) e in
      Some (if s then - mag else mag)
  | S754_infinity _ | S754_nan => None
  end.

Definition int64_of_float (unrepresentable : float64 -> Z) (f : float64) : Z :=
  match trunc_float f with
  | Some t =>
      if (- 2 ^ 63 <=? t) && (t <? 2 ^ 63) then t else unrepresentable f
  | None => unrepresentable f
  end.

(** The two errors of [strconv.ParseFloat]. *)
Inductive NumError : Type := ErrSyntax | ErrRange.

(** ** Decimal literals and their nearest [float64]

    [strconv.ParseFloat] returns the floating-point number nearest to the
    literal.  Ids of the form digits, point, digits are read here; the
    exact value of a [float64] is kept as an integer, in units of
    [2 ^ -1074], the spacing of the smallest binade. *)

Definition digitVal (c : ascii) : option Z :=
  let n := Z.of_N (N_of_ascii c) in
  if (48 <=? n) && (n <=? 57) then Some (n - 48) else None.

Fixpoint digitsValue (acc : Z) (s : list ascii) : option Z :=
  match s with
  | [] => Some acc
  | c :: r =>
      match digitVal c with
      | Some d => digitsValue (10 * acc + d) r
      | None => None
      end
  end.

(** The number a string of decimal digits denotes. *)
Definition digitsOf (s : string) : option Z :=
  digitsValue 0 (list_ascii_of_string s).

(** The id with integer part [ip] and fraction [frac]. *)
Definition decimalId (ip frac : string) : string := ip +:+ "." +:+ frac.

(** The number of fraction digits. *)
Definition fractionDigits (frac : string) : Z :=
  Z.of_nat (String.length frac).

(** [Some v] when [f] is finite and worth [v * 2 ^ -1074]. *)
Definition scaled (f : float64) : option Z :=
  match f with
  | S754_zero _ => Some 0
  | S754_finite s m e =>
      let v := Z.pos m * 2 ^ (e + 1074) in
      Some (if s then - v else v)
  | S754_infinity _ | S754_nan => None
  end.

(** [f] is a finite binary64 number nearest to [n / d]: no other is
    closer. *)
Definition nearest (n d : Z) (f : float64) : Prop :=
  valid_binary 53 1024 f = true
  /\ exists v, scaled f = Some v
       /\ forall g w, valid_binary 53 1024 g = true -> scaled g = Some w ->
            Z.abs (v * d - n * 2 ^ 1074) <= Z.abs (w * d - n * 2 ^ 1074).

(* ===================================================================== *)
(** * What [main.go] uses and does not define *)
(* ===================================================================== *)

(** The types of the collaborators. *)
Class Foreign : Type := {
  (** [Message] of the Slack client, with its fields [Ts] and [Text] *)
  Message : Type;
  Ts : Message -> string;
  Text : Message -> string;
  (** Go's [error] values *)
  error : Type;
  (** [textinput.Model] and [viewport.Model] of bubbles *)
  textinput_Model : Type;
  viewport_Model : Type;
  (** the commands the widgets hand back *)
  WidgetCmd : Type;
  (** the file system, and an open file *)
  FileSystem : Type;
  File : Type
}.

(** Key types of [tea.KeyMsg] that [Update] tells apart; the others stay a
    number. *)
Inductive KeyType : Type :=
| KeyEsc | KeyCtrlC | KeyEnter | KeyUp | KeyDown
| KeyOther (code : Z).

(** [tea.Msg] as [Update] receives it.  A nil slice is [None]: the
    [fetchMessagesMsg] branch tells nil from empty. *)
Inductive Msg `{Foreign} : Type :=
| KeyMsg (type : KeyType) (runes : string)
| WindowSizeMsg (Width Height : Z)
| redrawViewportMsg
| tickMsg (t : Time)
| fetchMessagesMsg (messages : option (list Message)) (err : option error)
| sendMessageMsg (err : option error)
| otherMsg (n : Z).

(** [tea.Cmd] as [Update] returns it: the commands [main.go] builds,
    unexecuted. *)
#[warnings="-register-all"]
Inductive Cmd `{Foreign} : Type :=
| cmd_nil
| cmd_Quit
| cmd_fetchMessages (channelID since : string)
| cmd_sendMessage (channelID text : string)
| cmd_tick                (* [tick()]: after 2s, a [tickMsg] *)
| cmd_refreshTick         (* after 500ms, [fetchMessagesMsg{nil, nil}] *)
| cmd_Sequence (cmds : list Cmd)
| cmd_Batch (cmds : list Cmd)
| cmd_widget (c : WidgetCmd).

(** The three lipgloss styles a message line is rendered with. *)
Inductive Style : Type := usernameStyle | timeStyle | messageStyle.

(** The operations of the collaborators. *)
Class ForeignOps `{Foreign} : Type := {
  UsernameForMessage : Message -> string * option error;
  Render : Style -> string -> string;
  (** [t.Format("15:04:05")] *)
  Format_clock : Time -> string;
  (** [strconv.ParseFloat(s, 64)] *)
  ParseFloat : string -> float64 * option NumError;
  (** [int64(f)] where [f] has no [int64] value *)
  int64_unrepresentable : float64 -> Z;
  (** [sort.Slice(x, less)], as a function of the elements *)
  sort_Slice : forall A : Type, (A -> A -> bool) -> list A -> list A;
  (** [os.OpenFile(name, O_APPEND|O_CREATE|O_WRONLY, 0644)] *)
  OpenFile_append : string -> FileSystem -> (File + error) * FileSystem;
  WriteString : File -> string -> FileSystem -> option error * FileSystem;
  Close : File -> FileSystem -> FileSystem;
  (** textinput *)
  input_Value : textinput_Model -> string;
  input_SetValue : string -> textinput_Model -> textinput_Model;
  input_Reset : textinput_Model -> textinput_Model;
  input_SetWidth : Z -> textinput_Model -> textinput_Model;
  input_Update : textinput_Model -> Msg -> textinput_Model * Cmd;
  (** viewport *)
  viewport_New : Z -> Z -> viewport_Model;
  viewport_SetWidth : Z -> viewport_Model -> viewport_Model;
  viewport_SetHeight : Z -> viewport_Model -> viewport_Model;
  viewport_SetContent : string -> viewport_Model -> viewport_Model;
  viewport_GotoBottom : viewport_Model -> viewport_Model;
  viewport_Update : viewport_Model -> Msg -> viewport_Model * Cmd
}.

(* ===================================================================== *)
(** * The model *)
(* ===================================================================== *)

Section Controller.

Context `{ops : ForeignOps}.

Record formattedMessage : Type := mkFormatted {
  text : string;
  timestamp : Time;
  id : string             (* message ID (ts) *)
}.

(** The [model] struct.  Its [client] is the Slack client behind
    [UsernameForMessage] and the commands; [messageIDs] is a Go
    [map[string]bool], read with [false] for an absent key. *)
Record model : Type := mkModel {
  channelID : string;
  channelName : string;
  messages : list formattedMessage;
  messageIDs : gmap string bool;
  input : textinput_Model;
  viewport : viewport_Model;
  err : option error;
  ready : bool;
  lastFetched : string;
  history : list string;
  historyIndex : Z;
  historyFile : string;
  browsingHist : bool;
  refreshCount : Z;
  needsRedraw : bool
}.

(** Field assignments. *)
Definition set_messages (m : model) (v : list formattedMessage) : model :=
  mkModel (channelID m) (channelName m) v (messageIDs m) (input m)
    (viewport m) (err m) (ready m) (lastFetched m) (history m)
    (historyIndex m) (historyFile m) (browsingHist m) (refreshCount m)
    (needsRedraw m).

Definition set_messageIDs (m : model) (v : gmap string bool) : model :=
  mkModel (channelID m) (channelName m) (messages m) v (input m)
    (viewport m) (err m) (ready m) (lastFetched m) (history m)
    (historyIndex m) (historyFile m) (browsingHist m) (refreshCount m)
    (needsRedraw m).

Definition set_input (m : model) (v : textinput_Model) : model :=
  mkModel (channelID m) (channelName m) (messages m) (messageIDs m) v
    (viewport m) (err m) (ready m) (lastFetched m) (history m)
    (historyIndex m) (historyFile m) (browsingHist m) (refreshCount m)
    (needsRedraw m).

Definition set_viewport (m : model) (v : viewport_Model) : model :=
  mkModel (channelID m) (channelName m) (messages m) (messageIDs m) (input m)
    v (err m) (ready m) (lastFetched m) (history m)
    (historyIndex m) (historyFile m) (browsingHist m) (refreshCount m)
    (needsRedraw m).

Definition set_err (m : model) (v : option error) : model :=
  mkModel (channelID m) (channelName m) (messages m) (messageIDs m) (input m)
    (viewport m) v (ready m) (lastFetched m) (history m)
    (historyIndex m) (historyFile m) (browsingHist m) (refreshCount m)
    (needsRedraw m).

Definition set_ready (m : model) (v : bool) : model :=
  mkModel (channelID m) (channelName m) (messages m) (messageIDs m) (input m)
    (viewport m) (err m) v (lastFetched m) (history m)
    (historyIndex m) (historyFile m) (browsingHist m) (refreshCount m)
    (needsRedraw m).

Definition set_lastFetched (m : model) (v : string) : model :=
  mkModel (channelID m) (channelName m) (messages m) (messageIDs m) (input m)
    (viewport m) (err m) (ready m) v (history m)
    (historyIndex m) (historyFile m) (browsingHist m) (refreshCount m)
    (needsRedraw m).

Definition set_history (m : model) (v : list string) : model :=
  mkModel (channelID m) (channelName m) (messages m) (messageIDs m) (input m)
    (viewport m) (err m) (ready m) (lastFetched m) v
    (historyIndex m) (historyFile m) (browsingHist m) (refreshCount m)
    (needsRedraw m).

Definition set_historyIndex (m : model) (v : Z) : model :=
  mkModel (channelID m) (channelName m) (messages m) (messageIDs m) (input m)
    (viewport m) (err m) (ready m) (lastFetched m) (history m)
    v (historyFile m) (browsingHist m) (refreshCount m)
    (needsRedraw m).

Definition set_browsingHist (m : model) (v : bool) : model :=
  mkModel (channelID m) (channelName m) (messages m) (messageIDs m) (input m)
    (viewport m) (err m) (ready m) (lastFetched m) (history m)
    (historyIndex m) (historyFile m) v (refreshCount m)
    (needsRedraw m).

Definition set_refreshCount (m : model) (v : Z) : model :=
  mkModel (channelID m) (channelName m) (messages m) (messageIDs m) (input m)
    (viewport m) (err m) (ready m) (lastFetched m) (history m)
    (historyIndex m) (historyFile m) (browsingHist m) v
    (needsRedraw m).

(** [s[i]] for an [int] index; [None] is Go's index-out-of-range panic. *)
Definition index {A : Type} (l : list A) (i : Z) : option A :=
  if i <? 0 then None else l !! Z.to_nat i.

(* --------------------------------------------------------------------- *)
(** ** The history log *)
(* --------------------------------------------------------------------- *)

(** [s != ""] *)
Definition nonempty (s : string) : bool := negb (String.eqb s "").

(** [len(m.history) > 0 && m.history[len(m.history)-1] == message] *)
Definition lastIs (h : list string) (message : string) : bool :=
  match last h with
  | Some l => String.eqb l message
  | None => false
  end.

Definition newline : string := String "010" "".

(** [appendToHistory]: the new model, the returned error and the file
    system after the write.  The deferred [file.Close()] runs after the
    write, whatever it returned. *)
Definition appendToHistory (m : model) (message : string) (fs : FileSystem)
  : model * option error * FileSystem :=
  if negb (nonempty (TrimSpace message)) then (m, None, fs)
  else if lastIs (history m) message then (m, None, fs)
  else
    let m := set_history m (history m ++ [message]) in
    let m := set_historyIndex m (len (history m)) in
    match OpenFile_append (historyFile m) fs with
    | (inr e, fs) => (m, Some e, fs)
    | (inl file, fs) =>
        let '(e, fs) := WriteString file (message +:+ newline) fs in
        (m, e, Close file fs)
    end.

(** [navigateHistory].  The entry read at [m.history[m.historyIndex]] is
    always in range ([navigateHistory_index] below), so the [None] branch
    of the read, Go's panic, is never taken. *)
Definition clampIndex (m : model) (direction : Z) : Z :=
  let newIndex := int_add (historyIndex m) direction in
  if newIndex <? 0 then 0
  else if len (history m) <? newIndex then len (history m)
  else newIndex.

Definition navigateHistory (m : model) (direction : Z) : model :=
  let newIndex := clampIndex m direction in
  if negb (newIndex =? historyIndex m) then
    let m := set_historyIndex m newIndex in
    let m :=
      if historyIndex m =? len (history m) then
        set_input m (input_SetValue "" (input m))
      else if 0 <? len (history m) then
        match index (history m) (historyIndex m) with
        | Some entry => set_input m (input_SetValue entry (input m))
        | None => m
        end
      else m in
    set_browsingHist m (historyIndex m <? len (history m))
  else m.

(* --------------------------------------------------------------------- *)
(** ** The message store *)
(* --------------------------------------------------------------------- *)

(** [m.messageIDs[ts]] *)
Definition seen (ids : gmap string bool) (ts : string) : bool :=
  default false (ids !! ts).

(** [time.Unix(int64(ts), 0)] with [ts, _ := strconv.ParseFloat(id, 64)]:
    the error is dropped. *)
Definition timestampOf (ts : string) : Time :=
  time_Unix (int64_of_float int64_unrepresentable (fst (ParseFloat ts))).

(** The [formattedMessage] built for a message that is not stored yet. *)
Definition format (message : Message) : formattedMessage :=
  let timestamp := timestampOf (Ts message) in
  let '(name, e) := UsernameForMessage message in
  let username := match e with Some _ => "unknown"%string | None => name end in
  let formattedText :=
    Render timeStyle (Format_clock timestamp) +:+ " " +:+
    Render usernameStyle username +:+ ": " +:+
    Render messageStyle (Text message) in
  mkFormatted formattedText timestamp (Ts message).

(** The loop [for _, message := range msg.messages], threading [m] and
    [messagesAdded]. *)
Fixpoint processMessages (batch : list Message) (m : model)
    (messagesAdded : bool) : model * bool :=
  match batch with
  | [] => (m, messagesAdded)
  | message :: rest =>
      if seen (messageIDs m) (Ts message) then
        processMessages rest m messagesAdded
      else
        let m := set_messages m (messages m ++ [format message]) in
        let m := set_messageIDs m (<[Ts message := true]> (messageIDs m)) in
        processMessages rest m true
  end.

(** The comparison handed to [sort.Slice]. *)
Definition lessByTimestamp (a b : formattedMessage) : bool :=
  Before (timestamp a) (timestamp b).

(** [updateViewportContent] *)
Definition updateViewportContent (m : model) : model :=
  let content :=
    fold_left (fun acc msg => acc +:+ text msg +:+ newline) (messages m)
      ""%string in
  set_viewport m
    (viewport_GotoBottom (viewport_SetContent content (viewport m))).

(** The [fetchMessagesMsg] branch for a non-nil batch, up to the end of
    the [switch]. *)
Definition mergeMessages (m : model) (batch : list Message) : model :=
  match batch with
  | [] => m
  | first :: _ =>
      let '(m, messagesAdded) := processMessages batch m false in
      if messagesAdded then
        let m := set_messages m (sort_Slice _ lessByTimestamp (messages m)) in
        let m := set_lastFetched m (Ts first) in
        updateViewportContent m
      else m
  end.

(* --------------------------------------------------------------------- *)
(** ** [Update] *)
(* --------------------------------------------------------------------- *)

(** The tail of [Update], after the [switch]: the event is handed to the
    two widgets and their commands are batched after the collected ones. *)
Definition updateWidgets (m : model) (cmds : list Cmd) (msg : Msg)
  : model * Cmd :=
  let '(ti, tiCmd) := input_Update (input m) msg in
  let m := set_input m ti in
  let '(vp, vpCmd) := viewport_Update (viewport m) msg in
  let m := set_viewport m vp in
  (m, cmd_Batch (cmds ++ [tiCmd; vpCmd])).

(** The command of the Enter branch: send, then the delayed refresh. *)
Definition sendThenRefresh (m : model) (text : string) : Cmd :=
  cmd_Sequence [cmd_sendMessage (channelID m) text; cmd_refreshTick].

Definition Update (m : model) (msg : Msg) (fs : FileSystem)
  : model * Cmd * FileSystem :=
  match msg with
  | KeyMsg KeyEsc _ | KeyMsg KeyCtrlC _ => (m, cmd_Quit, fs)
  | KeyMsg KeyEnter _ =>
      if nonempty (TrimSpace (input_Value (input m))) then
        let text := input_Value (input m) in
        let '(m, e, fs) := appendToHistory m text fs in
        let m := match e with Some _ => set_err m e | None => m end in
        let cmds := [sendThenRefresh m text] in
        let m := set_input m (input_Reset (input m)) in
        let m := set_browsingHist m false in
        (updateWidgets m cmds msg, fs)
      else (updateWidgets m [] msg, fs)
  | KeyMsg KeyUp _ => (navigateHistory m (-1), cmd_nil, fs)
  | KeyMsg KeyDown _ => (navigateHistory m 1, cmd_nil, fs)
  | KeyMsg (KeyOther _) _ => (updateWidgets m [] msg, fs)
  | WindowSizeMsg width height =>
      let m :=
        if negb (ready m) then
          let m := set_viewport m (viewport_New width (int_sub height 4)) in
          let m := set_input m (input_SetWidth (int_sub width 4) (input m)) in
          set_ready m true
        else
          let m := set_viewport m (viewport_SetWidth width (viewport m)) in
          let m :=
            set_viewport m
              (viewport_SetHeight (int_sub height 4) (viewport m)) in
          set_input m (input_SetWidth (int_sub width 4) (input m)) in
      (updateWidgets (updateViewportContent m) [] msg, fs)
  | redrawViewportMsg =>
      (updateWidgets (updateViewportContent m) [] msg, fs)
  | tickMsg _ =>
      let m := set_refreshCount m (int_add (refreshCount m) 1) in
      (m,
       cmd_Batch [cmd_tick; cmd_fetchMessages (channelID m) (lastFetched m)],
       fs)
  | fetchMessagesMsg _ (Some e) => (set_err m (Some e), cmd_nil, fs)
  | fetchMessagesMsg None None =>
      (m, cmd_fetchMessages (channelID m) "", fs)
  | fetchMessagesMsg (Some batch) None =>
      (updateWidgets (mergeMessages m batch) [] msg, fs)
  | sendMessageMsg (Some e) => (set_err m (Some e), cmd_nil, fs)
  | sendMessageMsg None => (m, cmd_fetchMessages (channelID m) "", fs)
  | otherMsg _ => (updateWidgets m [] msg, fs)
  end.

(** [initialModel], given what it obtained from the client, the widget
    constructors and the history file's lines. *)
Definition initialModel (channelID channelName historyFile : string)
    (ti : textinput_Model) (vp : viewport_Model) (history : list string)
  : model :=
  mkModel channelID channelName [] ∅ ti vp None false "" history
    (len history) historyFile false 0 false.

End Controller.

(* ===================================================================== *)
(** * Notions the statements use *)
(* ===================================================================== *)

Section Notions.

Context `{ops : ForeignOps}.

(** A run of the program: the events are handled one after the other. *)
Fixpoint run (m : model) (msgs : list Msg) (fs : FileSystem)
  : model * FileSystem :=
  match msgs with
  | [] => (m, fs)
  | msg :: rest => let '(m, _, fs) := Update m msg fs in run m rest fs
  end.

(** A command that starts no task: nil, or a batch or sequence of such. *)
Fixpoint launchesNothing (c : Cmd) : bool :=
  match c with
  | cmd_nil => true
  | cmd_Batch l | cmd_Sequence l =>
      (fix all (l : list Cmd) : bool :=
         match l with
         | [] => true
         | c :: r => launchesNothing c && all r
         end) l
  | _ => false
  end.

(** Non-decreasing by timestamp. *)
Definition sortedByTimestamp (l : list formattedMessage) : Prop :=
  StronglySorted (fun a b => timestamp a <= timestamp b) l.


(** Some message of the batch is not stored yet. *)
Definition hasNew (m : model) (batch : list Message) : bool :=
  existsb (fun message => negb (seen (messageIDs m) (Ts message))) batch.

(** The messages the loop of the fetch branch accepts, in order: those
    whose id is neither stored nor met earlier in the batch. *)
Fixpoint accepted (ids : gmap string bool) (batch : list Message)
  : list Message :=
  match batch with
  | [] => []
  | message :: rest =>
      if seen ids (Ts message) then accepted ids rest
      else message :: accepted (<[Ts message := true]> ids) rest
  end.

(** The ids after the loop. *)
Definition markSeen (ids : gmap string bool) (batch : list Message)
  : gmap string bool :=
  fold_left (fun ids message => <[Ts message := true]> ids) batch ids.

(** The durable write of [appendToHistory m text] fails with [e]: the
    open does, or the write. *)
Definition writeFails (m : model) (text : string) (fs : FileSystem)
    (e : error) : Prop :=
  match OpenFile_append (historyFile m) fs with
  | (inr e', _) => e' = e
  | (inl file, fs) => fst (WriteString file (text +:+ newline) fs) = Some e
  end.

(** The two widgets leave [msg] alone: handed the event, each stays as
    it is and starts no task. *)
Definition widgetsIgnore (m : model) (msg : Msg) : Prop :=
  (input_Update (input m) msg).1 = input m
  /\ launchesNothing (input_Update (input m) msg).2 = true
  /\ (viewport_Update (viewport m) msg).1 = viewport m
  /\ launchesNothing (viewport_Update (viewport m) msg).2 = true.

(** [navigateHistory m direction], [n] times. *)
Definition navigateTimes (direction : Z) (n : nat) (m : model) : model :=
  Nat.iter n (fun m => navigateHistory m direction) m.

End Notions.

(** ** The contract of [sort.Slice]

    With a [less] that is a strict weak ordering, [sort.Slice] leaves the
    same elements in an order where no element is less than an earlier
    one.  The package documents that the sort is not guaranteed to be
    stable, so nothing is said about elements that compare equal. *)

Record StrictWeakOrder {A : Type} (less : A -> A -> bool) : Prop := {
  less_asym : forall x y, less x y = true -> less y x = false;
  less_trans : forall x y z,
      less x y = true -> less y z = true -> less x z = true;
  less_incomp : forall x y z,
      less x y = false -> less y z = false -> less x z = false
}.

Definition ordered {A : Type} (less : A -> A -> bool) (l : list A) : Prop :=
  StronglySorted (fun x y => less y x = false) l.

Class SortSliceSpec `{ops : ForeignOps} : Prop := {
  sort_Slice_perm : forall (A : Type) less (l : list A),
      sort_Slice A less l ≡ₚ l;
  sort_Slice_ordered : forall (A : Type) less (l : list A),
      StrictWeakOrder less -> ordered less (sort_Slice A less l)
}.

(* ===================================================================== *)
(** * Two implementations of the collaborators

    Small stand-ins on which the statements below are run: messages are
    pairs of an id and a text, the widgets hold a string and ignore every
    event, the file system is a map from paths to contents with a fault
    switch, [ParseFloat] reads plain decimal literals, and [sort.Slice] is
    an insertion sort.  The two differ in where the sort puts an element
    among those it ties with. *)
(* ===================================================================== *)

Module Demo.

(** Insertion sort. [insertWith stop x l] puts [x] before the first [y]
    with [stop x y]. *)
Fixpoint insertWith {A : Type} (stop : A -> A -> bool) (x : A) (l : list A)
  : list A :=
  match l with
  | [] => [x]
  | y :: r => if stop x y then x :: y :: r else y :: insertWith stop x r
  end.

Fixpoint sortWith {A : Type} (stop : A -> A -> bool) (l : list A) : list A :=
  match l with
  | [] => []
  | x :: r => insertWith stop x (sortWith stop r)
  end.

(** An element goes before those it ties with ([tiesFirst]) or after
    them. *)
Definition stopRule {A : Type} (tiesFirst : bool) (less : A -> A -> bool)
    (x y : A) : bool :=
  if tiesFirst then negb (less y x) else less x y.

(** Decimal literals: digits, then optionally a point and digits. *)
(** The part before the first point and, if there is one, the part after. *)
Fixpoint splitPoint (s : list ascii) : list ascii * option (list ascii) :=
  match s with
  | [] => ([], None)
  | c :: r =>
      if Ascii.eqb c "." then ([], Some r)
      else let '(i, f) := splitPoint r in (c :: i, f)
  end.

(** [Some (n, k)] when [s] is the literal of [n / 10 ^ k]. *)
Definition decimalLiteral (s : string) : option (Z * Z) :=
  let '(i, f) := splitPoint (list_ascii_of_string s) in
  let f := default [] f in
  match i with
  | [] => None
  | _ =>
      match digitsValue 0 (i ++ f) with
      | Some n => Some (n, len f)
      | None => None
      end
  end.

Definition floatOfZ (n : Z) : float64 :=
  match n with
  | Z.pos p => S754_finite false p 0
  | _ => S754_zero false
  end.

(** [n / d] rounded to the nearest [float64], ties to even. *)
Definition nearestFloat64 (n d : Z) : float64 :=
  SFdiv 53 1024 (floatOfZ n) (floatOfZ d).

Definition parseFloat (s : string) : float64 * option NumError :=
  match decimalLiteral s with
  | Some (n, k) =>
      let f := nearestFloat64 n (10 ^ k) in
      match f with
      | S754_infinity _ => (f, Some ErrRange)
      | _ => (f, None)
      end
  | None => (S754_zero false, Some ErrSyntax)
  end.

(** The [float64] 2. *)
Definition two : float64 := S754_finite false 4503599627370496 (- 51).

(** The file system: the files, and the error every open reports, if any. *)
Definition Disk : Type := gmap string string * option string.

Definition foreign : Foreign := {|
  Message := string * string;
  Ts := fst;
  Text := snd;
  error := string;
  textinput_Model := string;
  viewport_Model := string;
  WidgetCmd := Empty_set;
  FileSystem := Disk;
  File := string
|}.

Definition ops (tiesFirst : bool) : @ForeignOps foreign := {|
  UsernameForMessage := fun _ : @Message foreign => ("user"%string, None);
  Render := fun _ s => s;
  Format_clock := fun _ => "12:00:00"%string;
  ParseFloat := parseFloat;
  int64_unrepresentable := fun _ => - 2 ^ 63;
  sort_Slice := fun A less l => sortWith (stopRule tiesFirst less) l;
  OpenFile_append := fun name (fs : @FileSystem foreign) =>
    match snd fs with
    | Some e => (inr e, fs)
    | None =>
        (inl name,
         (<[name := default ""%string (fst fs !! name)]> (fst fs), None))
    end;
  WriteString := fun (file : @File foreign) s (fs : @FileSystem foreign) =>
    (None,
     (<[file := default ""%string (fst fs !! file) +:+ s]> (fst fs), snd fs));
  Close := fun _ fs => fs;
  input_Value := fun ti : @textinput_Model foreign => ti;
  input_SetValue := fun s _ => s;
  input_Reset := fun _ => ""%string;
  input_SetWidth := fun _ ti => ti;
  input_Update := fun ti _ => (ti, cmd_nil);
  viewport_New := fun _ _ => ""%string;
  viewport_SetWidth := fun _ vp => vp;
  viewport_SetHeight := fun _ vp => vp;
  viewport_SetContent := fun s _ => s;
  viewport_GotoBottom := fun vp => vp;
  viewport_Update := fun vp _ => (vp, cmd_nil)
|}.

(** A session on channel C1 whose history file holds [history]. *)
Definition start (history : list string)
  : @model foreign :=
  @initialModel foreign "C1" "general" "/h" ""%string ""%string history.

Definition noFiles : Disk := (∅, None).
Definition brokenDisk : Disk := (∅, Some "read-only file system"%string).

(** The event of a fetch that brought [batch]. *)
Definition fetched (batch : list (string * string)) : @Msg foreign :=
  @fetchMessagesMsg foreign (Some batch) None.

End Demo.

(* ===================================================================== *)
(** * The rest of [main.go]

    [View], the start of a session ([initialModel] with its calls to the
    client and the file system) and the messages the commands
    [fetchMessages] and [sendMessage] deliver. *)
(* ===================================================================== *)

(** ** [bufio.Scanner] with the default [ScanLines]

    A token is a line without its line feed and without one trailing
    carriage return; an unterminated last line counts when it is not
    empty.  The scanner stops for good at a line that does not fit its
    buffer of [MaxScanTokenSize] bytes. *)

Definition LF : ascii := "010".
Definition CR : ascii := "013".
Definition MaxScanTokenSize : Z := 65536.

Definition dropCR (line : list ascii) : list ascii :=
  match last line with
  | Some c => if Ascii.eqb c CR then removelast line else line
  | None => line
  end.

(** [cur] is the line read so far. *)
Fixpoint scanTokens (cur data : list ascii) : list (list ascii) :=
  match data with
  | [] => match cur with [] => [] | _ => [dropCR cur] end
  | c :: rest =>
      if Ascii.eqb c LF then dropCR cur :: scanTokens [] rest
      else if MaxScanTokenSize <=? len cur + 1 then []
      else scanTokens (cur ++ [c]) rest
  end.

Definition scanLines (content : string) : list string :=
  map string_of_list_ascii (scanTokens [] (list_ascii_of_string content)).

(** [fmt.Sprintf("%d", n)] *)
Definition formatInt (n : Z) : string := pretty n.

(** The two lipgloss styles of [View]. *)
Inductive BoxStyle : Type := channelStyle | inputStyle.

(** What [View] uses and does not define. *)
Class ViewOps {F : Foreign} : Type := {
  (** [e.Error()], what [%s] prints of an error *)
  error_Error : error -> string;
  input_View : textinput_Model -> string;
  viewport_View : viewport_Model -> string;
  RenderBox : BoxStyle -> string -> string
}.

(** What [initialModel] uses and does not define.  Reading a file does
    not change the file system; [fileBytes] is what the scanner is given
    before the end of the file or a read error. *)
Class StartOps {F : Foreign} : Type := {
  (** [client.team] *)
  team : string;
  (** [client.ChannelInfo(channelID)]: the channel's [Name], or the error *)
  ChannelInfo : string -> string + error;
  (** [textinput.New()] with the placeholder, focus, width, limit and
      prompt of [initialModel] *)
  textinput_New : textinput_Model;
  UserHomeDir : string + error;
  filepath_Join : string -> string -> string;
  MkdirAll : string -> FileSystem -> option error * FileSystem;
  Stat : string -> FileSystem -> option error;
  Open : string -> FileSystem -> File + error;
  fileBytes : File -> FileSystem -> string
}.

(** The two calls of the Slack client behind the commands. *)
Class ClientOps {F : Foreign} : Type := {
  (** [client.History(channelID, since, until, limit)]: the [Messages] of
      the page, or the error *)
  History : string -> string -> string -> Z -> option (list Message) + error;
  (** [client.SendMessage(channelID, text)]: the error, if any *)
  SendMessage : string -> string -> option error
}.

(** What [Init] batches and [main.go] does not define. *)
Class InitOps {F : Foreign} : Type := {
  EnterAltScreen : Cmd;
  textinput_Blink : Cmd
}.

Section Rest.

Context {F : Foreign} {ops : ForeignOps}.
Context {vops : ViewOps} {sops : StartOps} {cops : ClientOps}.
Context {iops : InitOps}.

(** [View] *)
Definition errorScreen (e : error) : string :=
  "Error: " +:+ error_Error e +:+ newline +:+ "Press Ctrl+C to quit.".

Definition historyIndicator (m : model) : string :=
  if browsingHist m then
    " [History: " +:+ formatInt (int_add (historyIndex m) 1) +:+ "/"
    +:+ formatInt (len (history m)) +:+ "]"
  else "".

Definition View (m : model) : string :=
  if negb (ready m) then "Initializing..."
  else
    match err m with
    | Some e => errorScreen e
    | None =>
        let channelHeader := RenderBox channelStyle ("#" +:+ channelName m) in
        let messagesView := viewport_View (viewport m) in
        let inputField := RenderBox inputStyle (input_View (input m)) in
        channelHeader +:+ newline +:+ newline +:+ messagesView +:+ newline
        +:+ newline +:+ inputField +:+ historyIndicator m
    end.

(** The history file of a channel under the home directory. *)
Definition historyDirOf (homeDir : string) : string :=
  filepath_Join homeDir ".slack-chat-history".

Definition historyFileOf (homeDir channelID : string) : string :=
  filepath_Join (historyDirOf homeDir)
    (team +:+ "-" +:+ channelID +:+ ".history").

(** The loading loop of [initialModel]: no history when the file cannot
    be examined or opened. *)
Definition loadHistory (historyFile : string) (fs : FileSystem)
  : list string :=
  match Stat historyFile fs with
  | Some _ => []
  | None =>
      match Open historyFile fs with
      | inr _ => []
      | inl file => scanLines (fileBytes file fs)
      end
  end.

(** [initialModel(client, channelID)], with the file system it leaves. *)
Definition startSession (channelID : string) (fs : FileSystem)
  : (model + error) * FileSystem :=
  let channelName :=
    match ChannelInfo channelID with
    | inr _ => channelID
    | inl name => name
    end in
  let ti := textinput_New in
  let vp := viewport_SetContent "" (viewport_New 30 10) in
  match UserHomeDir with
  | inr e => (inr e, fs)
  | inl homeDir =>
      match MkdirAll (historyDirOf homeDir) fs with
      | (Some e, fs) => (inr e, fs)
      | (None, fs) =>
          let historyFile := historyFileOf homeDir channelID in
          let history := loadHistory historyFile fs in
          (inl (initialModel channelID channelName historyFile ti vp history),
           fs)
      end
  end.

(** The message the command [fetchMessages(client, channelID, since)]
    delivers. *)
Definition fetchMessages (channelID since : string) : Msg :=
  let limit := 20 in
  match History channelID since "" limit with
  | inr e => fetchMessagesMsg None (Some e)
  | inl messages => fetchMessagesMsg messages None
  end.

(** The message the command [sendMessage(client, channelID, text)]
    delivers. *)
Definition sendMessage (channelID text : string) : Msg :=
  sendMessageMsg (SendMessage channelID text).

(** The message a command of [main.go] delivers when the runtime runs it
    at time [now]; the other commands are the runtime's and the widgets'. *)
Definition deliver (now : Time) (c : Cmd) : option Msg :=
  match c with
  | cmd_fetchMessages channelID since => Some (fetchMessages channelID since)
  | cmd_sendMessage channelID text => Some (sendMessage channelID text)
  | cmd_tick => Some (tickMsg now)
  | cmd_refreshTick => Some (fetchMessagesMsg None None)
  | _ => None
  end.

(** ** Notions for the statements about the rest *)

(** The bytes of a file that can be examined and opened. *)
Definition fileContent (name : string) (fs : FileSystem) : option string :=
  match Stat name fs with
  | Some _ => None
  | None =>
      match Open name fs with
      | inr _ => None
      | inl file => Some (fileBytes file fs)
      end
  end.

(** The file [appendToHistory] writes for these entries. *)
Definition encodeLines (entries : list string) : string :=
  fold_right (fun e acc => e +:+ newline +:+ acc) ""%string entries.

(** A line the scanner gives back as it was written: no line feed in it,
    no carriage return at its end, and short enough for the buffer. *)
Definition cleanLine (e : string) : Prop :=
  let l := list_ascii_of_string e in
  (LF ∉ l) /\ last l <> Some CR /\ len l < MaxScanTokenSize.

(** No entry equals the one before it. *)
Definition noRepeats (h : list string) : Prop :=
  forall i a b, h !! i = Some a -> h !! S i = Some b -> a <> b.

(** The history cursor is in [0, len], and below len while browsing. *)
Definition cursorInRange (m : model) : Prop :=
  0 <= historyIndex m <= len (history m)
  /\ (browsingHist m = true -> historyIndex m < len (history m)).

(** The history log of [m'] is that of [m]. *)
Definition sameLog (m m' : model) : Prop :=
  history m' = history m /\ historyIndex m' = historyIndex m
  /\ browsingHist m' = browsingHist m.

(** The message store of [m'] is that of [m]. *)
Definition sameStore (m m' : model) : Prop :=
  messages m' = messages m /\ messageIDs m' = messageIDs m
  /\ lastFetched m' = lastFetched m.

(** The event is Enter on an input line the history log accepts. *)
Definition acceptedSubmit (m : model) (msg : Msg) : Prop :=
  exists runes, msg = KeyMsg KeyEnter runes
  /\ TrimSpace (input_Value (input m)) <> ""%string
  /\ last (history m) <> Some (input_Value (input m)).

(** The ids of the stored messages. *)
Definition storedIds (m : model) : list string := map id (messages m).

(** No id is stored twice, [messageIDs] marks exactly the stored ids, and
    the sync cursor is empty or one of them. *)
Definition storeCoherent (m : model) : Prop :=
  NoDup (storedIds m)
  /\ (forall k, seen (messageIDs m) k = true <-> k ∈ storedIds m)
  /\ (lastFetched m = ""%string \/ lastFetched m ∈ storedIds m).

(** The event is Esc or Ctrl-C. *)
Definition isQuitKey (msg : Msg) : bool :=
  match msg with
  | KeyMsg KeyEsc _ | KeyMsg KeyCtrlC _ => true
  | _ => false
  end.

(** The history file holds what [appendToHistory] wrote for the entries
    in memory, every entry being a clean line; an empty history may have
    no file yet. *)
Definition mirrors (m : model) (fs : FileSystem) : Prop :=
  Forall cleanLine (history m)
  /\ (fileContent (historyFile m) fs = Some (encodeLines (history m))
      \/ (history m = [] /\ fileContent (historyFile m) fs = None)).

(** The event is a tick of the timer. *)
Definition isTick (msg : Msg) : bool :=
  match msg with tickMsg _ => true | _ => false end.

(** The number of ticks among the events. *)
Definition ticks (msgs : list Msg) : Z :=
  Z.of_nat (length (List.filter isTick msgs)).

(** The event is a key. *)
Definition isKey (msg : Msg) : bool :=
  match msg with KeyMsg _ _ => true | _ => false end.

(** The event is the first coming of the window's size, or a later one. *)
Definition isWindowSize (msg : Msg) : bool :=
  match msg with WindowSizeMsg _ _ => true | _ => false end.

(** [Init] *)
Definition Init (m : model) : Cmd :=
  cmd_Batch [EnterAltScreen;
             cmd_fetchMessages (channelID m) (lastFetched m);
             textinput_Blink;
             cmd_tick].

(** The content [updateViewportContent] builds: every message's text and
    a line feed, in the order of the store. *)
Definition rendered (ms : list formattedMessage) : string :=
  fold_left (fun acc msg => acc +:+ text msg +:+ newline) ms ""%string.

(** The events on which [Update] calls [updateViewportContent]. *)
Definition redraws (m : model) (msg : Msg) : bool :=
  match msg with
  | WindowSizeMsg _ _ | redrawViewportMsg => true
  | fetchMessagesMsg (Some batch) None => hasNew m batch
  | _ => false
  end.

(** The channels the fetches and sends of a command are addressed to. *)
Fixpoint targets (c : Cmd) : list string :=
  match c with
  | cmd_fetchMessages channelID _ | cmd_sendMessage channelID _ => [channelID]
  | cmd_Batch l | cmd_Sequence l =>
      (fix all (l : list Cmd) : list string :=
         match l with
         | [] => []
         | c :: r => targets c ++ all r
         end) l
  | _ => []
  end.

(** What a session is given at its start and never assigns again. *)
Definition sameSession (m m' : model) : Prop :=
  channelID m' = channelID m /\ channelName m' = channelName m
  /\ historyFile m' = historyFile m /\ needsRedraw m' = needsRedraw m.

(** The commands of the runtime and of the widgets address no channel:
    they are not fetches or sends of [main.go]. *)
Definition foreignQuiet : Prop :=
  targets EnterAltScreen = [] /\ targets textinput_Blink = []
  /\ (forall ti msg, targets (input_Update ti msg).2 = [])
  /\ (forall vp msg, targets (viewport_Update vp msg).2 = []).

End Rest.

(** What the statements ask of the file system: a write in append mode
    that succeeds adds its bytes at the end of what the file held (nothing,
    when the file was not there), and making a directory leaves the files
    as they are. *)
Class FileSystemSpec {F : Foreign} {ops : ForeignOps} {sops : StartOps}
  : Prop := {
  append_content : forall name fs file fs1 s fs2,
      OpenFile_append name fs = (inl file, fs1) ->
      WriteString file s fs1 = (None, fs2) ->
      fileContent name (Close file fs2)
      = Some (default ""%string (fileContent name fs) +:+ s);
  mkdir_content : forall dir fs name,
      fileContent name (MkdirAll dir fs).2 = fileContent name fs
}.

(** Stand-ins for the rest, over those of [Demo]. *)
Module DemoRest.

Definition viewOps : @ViewOps Demo.foreign := {|
  error_Error := fun e : @error Demo.foreign => e;
  input_View := fun ti : @textinput_Model Demo.foreign => ti;
  viewport_View := fun vp : @viewport_Model Demo.foreign => vp;
  RenderBox := fun _ s => s
|}.

Definition startOps : @StartOps Demo.foreign := {|
  team := "T"%string;
  ChannelInfo := fun _ => (inl "general"%string : string + @error Demo.foreign);
  textinput_New := (""%string : @textinput_Model Demo.foreign);
  UserHomeDir := (inl "/home/u"%string : string + @error Demo.foreign);
  filepath_Join := fun a b => (a +:+ "/" +:+ b)%string;
  MkdirAll := fun _ (fs : @FileSystem Demo.foreign) => (None, fs);
  Stat := fun name (fs : @FileSystem Demo.foreign) =>
    match fst fs !! name with
    | Some _ => None
    | None => Some "no such file or directory"%string
    end;
  Open := fun name (fs : @FileSystem Demo.foreign) =>
    match fst fs !! name with
    | Some _ => inl name
    | None => inr "no such file or directory"%string
    end;
  fileBytes := fun (file : @File Demo.foreign)
                   (fs : @FileSystem Demo.foreign) =>
    default ""%string (fst fs !! file)
|}.

(** A client whose pages are nil and whose sends succeed. *)
Definition clientOps : @ClientOps Demo.foreign := {|
  History := fun _ _ _ _ => inl None;
  SendMessage := fun _ _ => None
|}.

(** Runtime commands that are no fetches and no sends. *)
Definition initOps : @InitOps Demo.foreign := {|
  EnterAltScreen := @cmd_nil Demo.foreign;
  textinput_Blink := @cmd_nil Demo.foreign
|}.

(** The history file of channel C1, and a disk that holds [content] in
    it. *)
Definition historyFile : string :=
  @historyFileOf Demo.foreign startOps "/home/u" "C1".

Definition diskWith (content : string) : Demo.Disk :=
  ({[ historyFile := content ]}, None).

End DemoRest.

(* ===================================================================== *)
(** * Properties *)
(* ===================================================================== *)

Lemma wrap_int_small (z : Z) : - 2 ^ 63 <= z < 2 ^ 63 -> wrap_int z = z.
Proof.
  intros Hz. unfold wrap_int.
  rewrite Z.mod_small by lia. lia.
Qed.

Lemma wrap_int_range (z : Z) : - 2 ^ 63 <= wrap_int z < 2 ^ 63.
Proof.
  unfold wrap_int.
  pose proof (Z.mod_pos_bound (z + 2 ^ 63) (2 ^ 64) ltac:(lia)). lia.
Qed.

Lemma len_nonneg {A : Type} (l : list A) : 0 <= len l.
Proof. unfold len. lia. Qed.

Lemma len_app {A : Type} (l k : list A) : len (l ++ k) = len l + len k.
Proof. unfold len. rewrite length_app. lia. Qed.

Lemma lessByTimestamp_swo : StrictWeakOrder lessByTimestamp.
Proof.
  unfold lessByTimestamp, Before.
  split; intros *; rewrite ?Z.ltb_lt, ?Z.ltb_ge; lia.
Qed.

Lemma ordered_sortedByTimestamp (l : list formattedMessage) :
  ordered lessByTimestamp l -> sortedByTimestamp l.
Proof.
  unfold ordered, sortedByTimestamp.
  induction 1 as [|a l Hl IH Ha]; constructor; auto.
  eapply Forall_impl; [exact Ha|].
  intros b Hb. unfold lessByTimestamp, Before in Hb.
  apply Z.ltb_ge in Hb. exact Hb.
Qed.

Section StoreFacts.

Context `{ops : ForeignOps}.

Lemma seen_insert (ids : gmap string bool) (k k' : string) :
  seen (<[k := true]> ids) k' = if decide (k = k') then true else seen ids k'.
Proof.
  unfold seen. rewrite lookup_insert. destruct (decide (k = k')); reflexivity.
Qed.

Lemma seen_insert_same (ids : gmap string bool) (k : string) :
  seen ids k = true -> <[k := true]> ids = ids.
Proof.
  unfold seen. intros Hs. apply insert_id.
  destruct (ids !! k) as [[]|]; simpl in Hs; congruence.
Qed.

(** The loop, in closed form. *)
Lemma processMessages_spec (batch : list Message) (m : model) (b : bool) :
  processMessages batch m b =
    (set_messageIDs
       (set_messages m
          (messages m ++ map format (accepted (messageIDs m) batch)))
       (markSeen (messageIDs m) batch),
     b || hasNew m batch).
Proof.
  revert m b. induction batch as [|message rest IH]; intros m b.
  - simpl. unfold hasNew. simpl. rewrite app_nil_r, orb_false_r.
    destruct m; reflexivity.
  - simpl. unfold hasNew. simpl.
    destruct (seen (messageIDs m) (Ts message)) eqn:Hs.
    + rewrite IH. unfold markSeen at 2. simpl.
      rewrite (seen_insert_same _ _ Hs). reflexivity.
    + rewrite IH. simpl. rewrite <- app_assoc. simpl.
      rewrite orb_true_r. reflexivity.
Qed.

Lemma hasNew_accepted (m : model) (batch : list Message) :
  hasNew m batch = false -> accepted (messageIDs m) batch = [].
Proof.
  unfold hasNew. generalize (messageIDs m) as ids.
  induction batch as [|message rest IH]; intros ids; simpl; [reflexivity|].
  destruct (seen ids (Ts message)); simpl; [apply IH | discriminate].
Qed.

Lemma hasNew_markSeen (m : model) (batch : list Message) :
  hasNew m batch = false -> markSeen (messageIDs m) batch = messageIDs m.
Proof.
  unfold hasNew, markSeen. generalize (messageIDs m) as ids.
  induction batch as [|message rest IH]; intros ids; simpl; [reflexivity|].
  destruct (seen ids (Ts message)) eqn:Hs; simpl; [|discriminate].
  intros Hr. rewrite (seen_insert_same _ _ Hs). apply IH, Hr.
Qed.

Lemma seen_markSeen_mono (ids : gmap string bool) (batch : list Message)
    (k : string) :
  seen ids k = true -> seen (markSeen ids batch) k = true.
Proof.
  unfold markSeen. revert ids.
  induction batch as [|message rest IH]; intros ids Hk; simpl; [exact Hk|].
  apply IH. rewrite seen_insert. destruct (decide _); auto.
Qed.

Lemma seen_markSeen (ids : gmap string bool) (batch : list Message)
    (message : Message) :
  In message batch -> seen (markSeen ids batch) (Ts message) = true.
Proof.
  revert ids. induction batch as [|x rest IH]; intros ids Hin;
    [destruct Hin | destruct Hin as [Hx|Hx]].
  - subst x. unfold markSeen. simpl. apply seen_markSeen_mono.
    rewrite seen_insert. destruct (decide _); congruence.
  - unfold markSeen. simpl. apply IH, Hx.
Qed.

(** Nothing of a batch is new once the batch went through the loop. *)
Lemma hasNew_after (m m' : model) (batch : list Message) :
  messageIDs m' = markSeen (messageIDs m) batch -> hasNew m' batch = false.
Proof.
  intros Hids. unfold hasNew. rewrite Hids.
  apply not_true_is_false. intros Hex.
  apply existsb_exists in Hex as (message & Hin & Hn).
  rewrite (seen_markSeen _ _ _ Hin) in Hn. discriminate.
Qed.

(** [mergeMessages], in closed form. *)
Lemma mergeMessages_spec (m : model) (batch : list Message) :
  mergeMessages m batch =
    if hasNew m batch then
      updateViewportContent
        (set_lastFetched
           (set_messages
              (set_messageIDs
                 (set_messages m
                    (messages m ++ map format (accepted (messageIDs m) batch)))
                 (markSeen (messageIDs m) batch))
              (sort_Slice _ lessByTimestamp
                 (messages m ++ map format (accepted (messageIDs m) batch))))
           (default ""%string (Ts <$> head batch)))
    else m.
Proof.
  destruct batch as [|first rest]; [reflexivity|].
  unfold mergeMessages. rewrite processMessages_spec, orb_false_l.
  destruct (hasNew m (first :: rest)) eqn:Hnew; [reflexivity|].
  rewrite (hasNew_accepted _ _ Hnew), (hasNew_markSeen _ _ Hnew).
  simpl. rewrite app_nil_r. destruct m; reflexivity.
Qed.

Lemma updateWidgets_store (m : model) (cmds : list Cmd) (msg : Msg) :
  let m' := fst (updateWidgets m cmds msg) in
  messages m' = messages m /\ messageIDs m' = messageIDs m
  /\ lastFetched m' = lastFetched m.
Proof.
  unfold updateWidgets.
  destruct (input_Update _ _), (viewport_Update _ _). simpl. auto.
Qed.

Lemma updateWidgets_fields (m : model) (cmds : list Cmd) (msg : Msg) :
  let m' := fst (updateWidgets m cmds msg) in
  history m' = history m /\ historyIndex m' = historyIndex m
  /\ browsingHist m' = browsingHist m /\ err m' = err m
  /\ input m' = fst (input_Update (input m) msg).
Proof.
  unfold updateWidgets.
  destruct (input_Update _ _), (viewport_Update _ _). simpl. auto 6.
Qed.

End StoreFacts.

(** ** The insertion sorts of [Demo] meet the contract of [sort.Slice] *)

Lemma insertWith_perm {A : Type} (stop : A -> A -> bool) (x : A) (l : list A) :
  Demo.insertWith stop x l ≡ₚ x :: l.
Proof.
  induction l as [|y r IH]; simpl; [reflexivity|].
  destruct (stop x y); [reflexivity|].
  rewrite IH. apply Permutation_swap.
Qed.

Lemma sortWith_perm {A : Type} (stop : A -> A -> bool) (l : list A) :
  Demo.sortWith stop l ≡ₚ l.
Proof.
  induction l as [|x r IH]; simpl; [reflexivity|].
  rewrite insertWith_perm, IH. reflexivity.
Qed.

Section InsertionSort.

Variables (A : Type) (less stop : A -> A -> bool).
Hypothesis less_swo : StrictWeakOrder less.
Hypothesis stop_true : forall x y, stop x y = true -> less y x = false.
Hypothesis stop_false : forall x y, stop x y = false -> less x y = false.

Lemma insertWith_ordered (x : A) (l : list A) :
  ordered less l -> ordered less (Demo.insertWith stop x l).
Proof.
  unfold ordered. induction 1 as [|y r Hr IH Hy]; simpl.
  - repeat constructor.
  - destruct (stop x y) eqn:Hs.
    + constructor; [constructor; assumption|].
      constructor; [apply stop_true, Hs|].
      eapply Forall_impl; [exact Hy|]. intros z Hz. simpl in Hz.
      eapply (less_incomp _ less_swo); [exact Hz | apply stop_true, Hs].
    + constructor; [exact IH|].
      apply Forall_forall. intros z Hz.
      rewrite insertWith_perm in Hz. apply elem_of_cons in Hz as [->|Hz].
      * apply stop_false, Hs.
      * rewrite Forall_forall in Hy. apply Hy, Hz.
Qed.

Lemma sortWith_ordered (l : list A) : ordered less (Demo.sortWith stop l).
Proof.
  induction l as [|x r IH]; simpl; [constructor|].
  apply insertWith_ordered, IH.
Qed.

End InsertionSort.

Lemma demo_sort_spec (tiesFirst : bool) :
  @SortSliceSpec Demo.foreign (Demo.ops tiesFirst).
Proof.
  split; simpl.
  - intros A less l. apply sortWith_perm.
  - intros A less l Hswo. apply sortWith_ordered; [exact Hswo| |];
      intros x y; unfold Demo.stopRule; destruct tiesFirst.
    + rewrite negb_true_iff. auto.
    + apply (less_asym _ Hswo).
    + rewrite negb_false_iff. apply (less_asym _ Hswo).
    + auto.
Qed.

(* --------------------------------------------------------------------- *)
(** ** The message store *)
(* --------------------------------------------------------------------- *)

Section StoreClaims.

Context `{ops : ForeignOps}.

Lemma hasNew_ids (m m' : model) (batch : list Message) :
  messageIDs m' = messageIDs m -> hasNew m' batch = hasNew m batch.
Proof. unfold hasNew. intros ->. reflexivity. Qed.

Lemma mergeMessages_fixed (m : model) (batch : list Message) :
  hasNew m batch = false -> mergeMessages m batch = m.
Proof. intros Hn. rewrite mergeMessages_spec, Hn. reflexivity. Qed.

Lemma mergeMessages_hasNew (m : model) (batch : list Message) :
  hasNew (mergeMessages m batch) batch = false.
Proof.
  rewrite mergeMessages_spec. destruct (hasNew m batch) eqn:Hn; [|exact Hn].
  eapply hasNew_after. reflexivity.
Qed.

(** What the fetch branch does to the store, for a non-nil batch. *)
Lemma Update_fetch_store (m : model) (batch : list Message) (fs : FileSystem) :
  let m' := (Update m (fetchMessagesMsg (Some batch) None) fs).1.1 in
  messages m' = messages (mergeMessages m batch)
  /\ messageIDs m' = messageIDs (mergeMessages m batch)
  /\ lastFetched m' = lastFetched (mergeMessages m batch).
Proof. simpl. apply updateWidgets_store. Qed.

(** C4. Merging a batch a second time changes nothing: handling the same
    successful fetch completion again leaves the message sequence, the
    seen ids and the sync cursor as the first handling left them; and
    [mergeMessages] itself is idempotent on the whole model. *)
Theorem merge_idempotent (m : model) (batch : option (list Message))
    (fs : FileSystem) :
  let msg := fetchMessagesMsg batch None in
  let once := Update m msg fs in
  let twice := Update once.1.1 msg once.2 in
  messages twice.1.1 = messages once.1.1
  /\ messageIDs twice.1.1 = messageIDs once.1.1
  /\ lastFetched twice.1.1 = lastFetched once.1.1
  /\ forall B, mergeMessages (mergeMessages m B) B = mergeMessages m B.
Proof.
  intros msg once twice.
  assert (Hidem : forall B, mergeMessages (mergeMessages m B) B
                            = mergeMessages m B)
    by (intros B; apply mergeMessages_fixed, mergeMessages_hasNew).
  destruct batch as [batch|]; [|simpl; auto].
  subst msg once twice.
  destruct (Update_fetch_store m batch fs) as (Hm & Hi & Hl).
  set (m1 := (Update m (fetchMessagesMsg (Some batch) None) fs).1.1) in *.
  destruct (Update_fetch_store m1 batch
              (Update m (fetchMessagesMsg (Some batch) None) fs).2)
    as (Hm' & Hi' & Hl').
  assert (Hfix : mergeMessages m1 batch = m1).
  { apply mergeMessages_fixed. rewrite (hasNew_ids _ _ _ Hi).
    apply mergeMessages_hasNew. }
  rewrite Hfix in Hm', Hi', Hl'. auto.
Qed.

(** The messages are touched by the fetch branch alone. *)
Lemma appendToHistory_messages (m : model) (message : string)
    (fs : FileSystem) :
  messages (appendToHistory m message fs).1.1 = messages m.
Proof.
  unfold appendToHistory.
  destruct (negb _); [reflexivity|].
  destruct (lastIs _ _); [reflexivity|]. simpl.
  destruct (OpenFile_append _ _) as [[file|e] fs1]; [|reflexivity].
  destruct (WriteString _ _ _). reflexivity.
Qed.

Lemma navigateHistory_messages (m : model) (direction : Z) :
  messages (navigateHistory m direction) = messages m.
Proof.
  unfold navigateHistory.
  destruct (negb _); [|reflexivity]. simpl.
  destruct (_ =? _); [reflexivity|].
  destruct (0 <? _); [|reflexivity].
  destruct (index _ _); reflexivity.
Qed.

Lemma Update_messages (m : model) (msg : Msg) (fs : FileSystem) :
  messages (Update m msg fs).1.1 =
    match msg with
    | fetchMessagesMsg (Some batch) None => messages (mergeMessages m batch)
    | _ => messages m
    end.
Proof.
  destruct msg as [[| | | | |code] runes|w h| |t|[batch|] [e|]|[e|]|n]; simpl;
    try reflexivity;
    try (etransitivity; [apply updateWidgets_store|]; simpl; reflexivity).
  - destruct (nonempty _).
    + pose proof (appendToHistory_messages m (input_Value (input m)) fs) as Ha.
      destruct (appendToHistory _ _ _) as [[m0 e] fs0]. simpl in Ha |- *.
      etransitivity; [apply updateWidgets_store|]. simpl.
      destruct e; exact Ha.
    + simpl. apply updateWidgets_store.
  - apply navigateHistory_messages.
  - apply navigateHistory_messages.
  - etransitivity; [apply updateWidgets_store|].
    destruct (ready m); reflexivity.
Qed.

End StoreClaims.



Section SortedStore.

Context `{spec : SortSliceSpec}.

Lemma mergeMessages_messages (m : model) (batch : list Message) :
  hasNew m batch = true ->
  messages (mergeMessages m batch) =
    sort_Slice _ lessByTimestamp
      (messages m ++ map format (accepted (messageIDs m) batch)).
Proof. intros Hn. rewrite mergeMessages_spec, Hn. reflexivity. Qed.

Lemma mergeMessages_sorted (m : model) (batch : list Message) :
  sortedByTimestamp (messages m) ->
  sortedByTimestamp (messages (mergeMessages m batch)).
Proof.
  intros Hs. destruct (hasNew m batch) eqn:Hn.
  - rewrite mergeMessages_messages by exact Hn.
    apply ordered_sortedByTimestamp, sort_Slice_ordered, lessByTimestamp_swo.
  - rewrite mergeMessages_fixed by exact Hn. exact Hs.
Qed.

Lemma Update_sorted (m : model) (msg : Msg) (fs : FileSystem) :
  sortedByTimestamp (messages m) ->
  sortedByTimestamp (messages (Update m msg fs).1.1).
Proof.
  intros Hs. rewrite Update_messages.
  destruct msg as [| | | |[batch|] [e|]| |]; try exact Hs.
  apply mergeMessages_sorted, Hs.
Qed.

Lemma run_sorted (msgs : list Msg) (m : model) (fs : FileSystem) :
  sortedByTimestamp (messages m) ->
  sortedByTimestamp (messages (run m msgs fs).1).
Proof.
  revert m fs. induction msgs as [|msg rest IH]; intros m fs Hs; [exact Hs|].
  simpl. pose proof (Update_sorted m msg fs Hs) as Hu.
  destruct (Update m msg fs) as [[m1 c] fs1]. apply IH, Hu.
Qed.

(** The messages after a fetch that brought something new: those stored
    before and the accepted ones, in some order. *)
Lemma fetch_messages_perm (m : model) (batch : list Message)
    (fs : FileSystem) :
  hasNew m batch = true ->
  messages (Update m (fetchMessagesMsg (Some batch) None) fs).1.1
  ≡ₚ messages m ++ map format (accepted (messageIDs m) batch).
Proof.
  intros Hn. rewrite Update_messages, mergeMessages_messages by exact Hn.
  apply sort_Slice_perm.
Qed.

(** C5. After every sequence of events handled from the start of the
    session, where the store is empty (and so after every sequence of
    merges), the stored messages are non-decreasing by timestamp. *)
Theorem store_sorted_after_run (channel name file : string)
    (ti : textinput_Model) (vp : viewport_Model) (lines : list string)
    (msgs : list Msg) (fs : FileSystem) :
  sortedByTimestamp
    (messages (run (initialModel channel name file ti vp lines) msgs fs).1).
Proof. apply run_sorted. constructor. Qed.


End SortedStore.

Section Cursor.

Context `{ops : ForeignOps}.

(** C2, amended. For every successful fetch completion whose batch is not
    empty, the sync cursor becomes the id of the batch's first element
    when the batch holds a message that is not stored yet, and stays as it
    was when every message of the batch is already stored. *)
Theorem cursor_after_fetch (m : model) (first : Message)
    (rest : list Message) (fs : FileSystem) :
  let batch := first :: rest in
  let m' := (Update m (fetchMessagesMsg (Some batch) None) fs).1.1 in
  lastFetched m' = if hasNew m batch then Ts first else lastFetched m.
Proof.
  intros batch m'.
  destruct (Update_fetch_store m batch fs) as (_ & _ & Hl).
  subst m'. rewrite Hl, mergeMessages_spec.
  destruct (hasNew m batch); reflexivity.
Qed.

End Cursor.

(** C5, on a run of two fetches that overlap. *)
Lemma store_sorted_after_run_witness :
  sortedByTimestamp
    (messages
       (@run Demo.foreign (Demo.ops true) (Demo.start [])
          [Demo.fetched [("7.5", "c"); ("3.25", "a")];
           Demo.fetched [("5.0", "b"); ("3.25", "a")]]%string
          Demo.noFiles).1).
Proof.
  apply (@store_sorted_after_run Demo.foreign (Demo.ops true)
           (demo_sort_spec true)).
Defined.



(** C2 as stated fails: a batch whose only message is already stored
    leaves the cursor on the id it had, not on the id of the batch's
    first element. *)
Lemma cursor_kept_on_duplicate_batch :
  let m := (@run Demo.foreign (Demo.ops true) (Demo.start [])
              [Demo.fetched [("2", "b"); ("1", "a")]]%string
              Demo.noFiles).1 in
  let m' := (@Update Demo.foreign (Demo.ops true) m
               (Demo.fetched [("1", "a")]%string) Demo.noFiles).1.1 in
  lastFetched m' = "2"%string /\ lastFetched m' <> "1"%string.
Proof. vm_compute. split; [reflexivity | discriminate]. Qed.

(* --------------------------------------------------------------------- *)
(** ** Fetch completions without messages *)
(* --------------------------------------------------------------------- *)

Section EmptyFetch.

Context `{ops : ForeignOps}.

(** C3, amended. A successful fetch completion with an empty batch that
    is not nil is handed to the two widgets and nothing else happens: when
    they leave the event alone, the whole session state and the file
    system are unchanged and no task is launched.  With the nil batch, the
    marker the delayed refresh after a send delivers, the state is
    unchanged too, and a fetch of the most recent page is launched. *)
Theorem fetch_without_messages (m : model) (fs : FileSystem) :
  let empty := fetchMessagesMsg (Some []) None in
  widgetsIgnore m empty ->
  (exists cmd, Update m empty fs = (m, cmd, fs) /\ launchesNothing cmd = true)
  /\ Update m (fetchMessagesMsg None None) fs
     = (m, cmd_fetchMessages (channelID m) "", fs).
Proof.
  intros empty (Hi & Hic & Hv & Hvc). split; [|reflexivity].
  simpl. unfold updateWidgets.
  destruct (input_Update (input m) empty) as [ti tiCmd] eqn:Ei.
  simpl. destruct (viewport_Update (viewport m) empty) as [vp vpCmd] eqn:Ev.
  simpl in Hi, Hic, Hv, Hvc. subst ti vp.
  exists (cmd_Batch [tiCmd; vpCmd]). split.
  - destruct m; reflexivity.
  - simpl. rewrite Hic, Hvc. reflexivity.
Qed.

End EmptyFetch.

(** C3, amended, on a fresh session. *)
Lemma fetch_without_messages_witness :
  exists cmd,
    @Update Demo.foreign (Demo.ops true) (Demo.start [])
      (@fetchMessagesMsg Demo.foreign (Some []) None) Demo.noFiles
    = (Demo.start [], cmd, Demo.noFiles)
    /\ launchesNothing cmd = true.
Proof.
  apply (@fetch_without_messages Demo.foreign (Demo.ops true)
           (Demo.start []) Demo.noFiles).
  repeat split.
Defined.

(** C3 as stated fails: a fetch completion with no error and the nil
    batch, which is empty, launches a fetch. *)
Lemma nil_batch_launches_fetch :
  let msg := @fetchMessagesMsg Demo.foreign None None in
  let r := @Update Demo.foreign (Demo.ops true) (Demo.start []) msg
             Demo.noFiles in
  r.1.2 = cmd_fetchMessages "C1" "" /\ launchesNothing r.1.2 = false.
Proof. split; reflexivity. Qed.

(* --------------------------------------------------------------------- *)
(** ** The history log *)
(* --------------------------------------------------------------------- *)

(** [strings.TrimSpace] empties exactly the strings of white space. *)

Lemma space2_lead (x y : N) : space2 x y = true -> asciiSpace x = false.
Proof.
  unfold space2. rewrite andb_true_iff, N.eqb_eq. intros [-> _]. reflexivity.
Qed.

Lemma space3_lead (x y z : N) :
  space3 x y z = true -> asciiSpace x = false /\ forall y', space2 x y' = false.
Proof.
  unfold space3, space2.
  rewrite !orb_true_iff, !andb_true_iff, !N.eqb_eq.
  intros [[[[[-> _] _]|[[-> _] _]]|[[-> _] _]]|[[-> _] _]]; split; reflexivity.
Qed.

Lemma trimLeftSpace_spaces (l : list ascii) :
  spaceRunes l -> trimLeftSpace l = [].
Proof.
  induction 1 as [|a r Ha _ IH|a b r Hab _ IH|a b c r Habc _ IH]; simpl.
  - reflexivity.
  - rewrite Ha. exact IH.
  - rewrite (space2_lead _ _ Hab), Hab. exact IH.
  - destruct (space3_lead _ _ _ Habc) as [H1 H2].
    rewrite H1, H2, Habc. exact IH.
Qed.

Lemma spaceRunes_app (x y : list ascii) :
  spaceRunes x -> spaceRunes y -> spaceRunes (x ++ y).
Proof.
  induction 1; intros Hy; simpl;
    [assumption | apply spaces_ascii | apply spaces_two | apply spaces_three];
    auto.
Qed.

Lemma trimLeftSpace_split (n : nat) (l : list ascii) :
  (length l <= n)%nat ->
  (exists p, spaceRunes p /\ l = p ++ trimLeftSpace l)
  /\ trimLeftSpace (trimLeftSpace l) = trimLeftSpace l.
Proof.
  revert l. induction n as [|n IH]; intros l Hn.
  - destruct l; [|simpl in Hn; lia].
    split; [exists []; split; [constructor|]|]; reflexivity.
  - destruct l as [|a r];
      [split; [exists []; split; [constructor|]|]; reflexivity|].
    simpl in Hn. cbn [trimLeftSpace].
    destruct (asciiSpace (byte_of a)) eqn:Ha.
    { destruct (IH r ltac:(lia)) as [(p & Hp & Hr) Hi]. split; [|exact Hi].
      exists (a :: p). split; [constructor; auto|]. simpl. congruence. }
    assert (Hself : forall s, trimLeftSpace (a :: r) = s -> s = a :: r ->
              (exists p, spaceRunes p /\ a :: r = p ++ s)
              /\ trimLeftSpace s = s).
    { intros s Hs ->. split; [exists []; split; [constructor | reflexivity]|].
      exact Hs. }
    destruct r as [|b r2].
    { apply Hself; [|reflexivity]. cbn [trimLeftSpace]. rewrite Ha.
      reflexivity. }
    destruct (space2 (byte_of a) (byte_of b)) eqn:Hab.
    { destruct (IH r2 ltac:(simpl in Hn; lia)) as [(p & Hp & Hr) Hi].
      split; [|exact Hi].
      exists (a :: b :: p). split; [apply spaces_two; auto|]. simpl.
      congruence. }
    destruct r2 as [|c r3].
    { apply Hself; [|reflexivity]. cbn [trimLeftSpace]. rewrite Ha, Hab.
      reflexivity. }
    destruct (space3 (byte_of a) (byte_of b) (byte_of c)) eqn:Habc.
    { destruct (IH r3 ltac:(simpl in Hn; lia)) as [(p & Hp & Hr) Hi].
      split; [|exact Hi].
      exists (a :: b :: c :: p). split; [apply spaces_three; auto|].
      simpl. congruence. }
    apply Hself; [|reflexivity]. cbn [trimLeftSpace]. rewrite Ha, Hab, Habc.
    reflexivity.
Qed.

Lemma trimLeftSpaceRev_spaces (n : nat) (k : list ascii) :
  (length k <= n)%nat -> trimLeftSpaceRev k = [] -> spaceRunes (rev k).
Proof.
  revert k. induction n as [|n IH]; intros k Hn.
  - destruct k; [constructor | simpl in Hn; lia].
  - destruct k as [|c r]; [constructor|].
    simpl in Hn. cbn [trimLeftSpaceRev].
    destruct (asciiSpace (byte_of c)) eqn:Hc.
    { intros Hr. simpl. apply spaceRunes_app; [apply IH; [lia | exact Hr]|].
      constructor; [exact Hc | constructor]. }
    destruct r as [|b r2]; [discriminate|].
    destruct (space2 (byte_of b) (byte_of c)) eqn:Hbc.
    { intros Hr. simpl. rewrite <- app_assoc.
      apply spaceRunes_app; [apply IH; [simpl in Hn; lia | exact Hr]|].
      apply spaces_two; [exact Hbc | constructor]. }
    destruct r2 as [|a r3]; [discriminate|].
    destruct (space3 (byte_of a) (byte_of b) (byte_of c)) eqn:Habc;
      [|discriminate].
    intros Hr. simpl. rewrite <- !app_assoc.
    apply spaceRunes_app; [apply IH; [simpl in Hn; lia | exact Hr]|].
    apply spaces_three; [exact Habc | constructor].
Qed.

Lemma TrimSpace_empty (s : string) :
  TrimSpace s = ""%string <-> whitespaceOnly s.
Proof.
  unfold TrimSpace, whitespaceOnly.
  set (l := list_ascii_of_string s). split.
  - intros He.
    assert (Hr : trimLeftSpaceRev (rev (trimLeftSpace l)) = []).
    { destruct (trimLeftSpaceRev (rev (trimLeftSpace l))) as [|x y] eqn:E;
        [reflexivity|].
      simpl in He. destruct (rev y ++ [x]) eqn:E2; [|discriminate].
      destruct (rev y); discriminate. }
    apply (trimLeftSpaceRev_spaces _ _ (le_n _)) in Hr.
    rewrite rev_involutive in Hr.
    destruct (trimLeftSpace_split _ l (le_n _)) as [(p & Hp & Hl) Hi].
    rewrite (trimLeftSpace_spaces _ Hr) in Hi.
    rewrite Hl, <- Hi, app_nil_r. exact Hp.
  - intros Hs. rewrite (trimLeftSpace_spaces _ Hs). reflexivity.
Qed.

Lemma nonempty_true (s : string) : nonempty s = true <-> s <> ""%string.
Proof. unfold nonempty. rewrite negb_true_iff. apply String.eqb_neq. Qed.

Lemma nonempty_false (s : string) : nonempty s = false <-> s = ""%string.
Proof. unfold nonempty. rewrite negb_false_iff. apply String.eqb_eq. Qed.

Lemma lastIs_true (h : list string) (message : string) :
  lastIs h message = true <-> last h = Some message.
Proof.
  unfold lastIs. destruct (last h) as [l|]; [|split; discriminate].
  rewrite String.eqb_eq. split; congruence.
Qed.

Lemma lastIs_false (h : list string) (message : string) :
  lastIs h message = false <-> last h <> Some message.
Proof.
  rewrite <- lastIs_true. destruct (lastIs h message); split; congruence.
Qed.

Section HistoryLog.

Context `{ops : ForeignOps}.

(** An accepted submission: the entry and the cursor, whatever the write
    does. *)
Lemma appendToHistory_accepted (m : model) (message : string)
    (fs : FileSystem) :
  TrimSpace message <> ""%string -> last (history m) <> Some message ->
  let r := appendToHistory m message fs in
  history r.1.1 = history m ++ [message]
  /\ historyIndex r.1.1 = len (history m ++ [message])
  /\ messages r.1.1 = messages m /\ browsingHist r.1.1 = browsingHist m
  /\ input r.1.1 = input m /\ err r.1.1 = err m
  /\ channelID r.1.1 = channelID m
  /\ r.1.2 =
       match OpenFile_append (historyFile m) fs with
       | (inr e, _) => Some e
       | (inl file, fs) => (WriteString file (message +:+ newline) fs).1
       end.
Proof.
  intros Hb Hd. apply nonempty_true in Hb. apply lastIs_false in Hd.
  unfold appendToHistory. rewrite Hb, Hd. simpl.
  destruct (OpenFile_append _ _) as [[file|e] fs1]; simpl; [|auto 10].
  destruct (WriteString _ _ _). simpl. auto 10.
Qed.

Lemma appendToHistory_rejected (m : model) (message : string)
    (fs : FileSystem) :
  TrimSpace message = ""%string \/ last (history m) = Some message ->
  appendToHistory m message fs = (m, None, fs).
Proof.
  unfold appendToHistory. intros [Hb|Hd].
  - apply nonempty_false in Hb. rewrite Hb. reflexivity.
  - apply lastIs_true in Hd. rewrite Hd. destruct (negb _); reflexivity.
Qed.

(** C6. The strings [strings.TrimSpace] empties are the strings of white
    space only, the empty string and three spaces among them.  Submitting
    one to the history log appends nothing, and neither does submitting
    the text of the last entry; every other submission appends exactly one
    entry, itself, and sets the cursor to the new length.  So the same text
    submitted twice in a row is appended once. *)
Theorem history_append_rules (m : model) (message : string)
    (fs : FileSystem) :
  let r := appendToHistory m message fs in
  (TrimSpace message = ""%string <-> whitespaceOnly message)
  /\ (whitespaceOnly message -> r = (m, None, fs))
  /\ (last (history m) = Some message -> r = (m, None, fs))
  /\ (~ whitespaceOnly message -> last (history m) <> Some message ->
        history r.1.1 = history m ++ [message]
        /\ historyIndex r.1.1 = len (history r.1.1)
        /\ history (appendToHistory r.1.1 message r.2).1.1 = history r.1.1)
  /\ whitespaceOnly "" /\ whitespaceOnly "   ".
Proof.
  intros r. subst r.
  split; [apply TrimSpace_empty|].
  split; [intros Hb; apply appendToHistory_rejected, or_introl,
            TrimSpace_empty, Hb|].
  split; [intros Hd; apply appendToHistory_rejected; auto|].
  split; [|split; repeat constructor].
  intros Hb Hd. rewrite <- TrimSpace_empty in Hb.
  destruct (appendToHistory_accepted m message fs Hb Hd) as (Hh & Hi & _).
  rewrite Hi, Hh. split; [reflexivity|]. split; [reflexivity|].
  rewrite appendToHistory_rejected; [exact Hh|].
  right. rewrite Hh. apply last_snoc.
Qed.

Lemma clampIndex_range (m : model) (direction : Z) :
  0 <= clampIndex m direction <= len (history m).
Proof.
  unfold clampIndex. pose proof (len_nonneg (history m)).
  destruct (Z.ltb_spec (int_add (historyIndex m) direction) 0); [lia|].
  destruct (Z.ltb_spec (len (history m))
              (int_add (historyIndex m) direction)); lia.
Qed.

Lemma index_in_range {A : Type} (l : list A) (i : Z) :
  0 <= i < len l -> exists x, index l i = Some x.
Proof.
  intros Hi. unfold index. destruct (Z.ltb_spec i 0); [lia|].
  apply lookup_lt_is_Some_2. unfold len in Hi. lia.
Qed.

(** The entry [navigateHistory] reads is in range: the read never panics. *)
Lemma navigateHistory_index (m : model) (direction : Z) :
  clampIndex m direction <> len (history m) ->
  exists entry, index (history m) (clampIndex m direction) = Some entry.
Proof.
  intros Hne. apply index_in_range.
  pose proof (clampIndex_range m direction). lia.
Qed.

Lemma navigateHistory_fixed (m : model) (direction : Z) :
  clampIndex m direction = historyIndex m -> navigateHistory m direction = m.
Proof.
  intros Hc. unfold navigateHistory. rewrite Hc, Z.eqb_refl. reflexivity.
Qed.

Lemma navigateHistory_moved (m : model) (direction : Z) :
  clampIndex m direction <> historyIndex m ->
  let i := clampIndex m direction in
  let m' := navigateHistory m direction in
  historyIndex m' = i /\ history m' = history m
  /\ browsingHist m' = (i <? len (history m))
  /\ (i = len (history m) -> input m' = input_SetValue "" (input m))
  /\ (i < len (history m) ->
        exists entry, index (history m) i = Some entry
                      /\ input m' = input_SetValue entry (input m)).
Proof.
  intros Hne i m'. subst m'. unfold navigateHistory. fold i.
  apply Z.eqb_neq in Hne. fold i in Hne. rewrite Hne. simpl.
  pose proof (clampIndex_range m direction) as Hr. fold i in Hr.
  destruct (Z.eqb_spec i (len (history m))) as [He|He].
  - simpl. repeat split; auto. lia.
  - destruct (Z.ltb_spec 0 (len (history m))) as [Hl|Hl]; [|lia].
    destruct (navigateHistory_index m direction He) as [entry Hentry].
    fold i in Hentry. rewrite Hentry. simpl.
    repeat split; auto; [lia|]. intros _. exists entry. auto.
Qed.

Lemma navigateHistory_cursor (m : model) (direction : Z) :
  historyIndex (navigateHistory m direction) = clampIndex m direction
  /\ history (navigateHistory m direction) = history m.
Proof.
  destruct (Z.eq_dec (clampIndex m direction) (historyIndex m)) as [He|Hne].
  - rewrite navigateHistory_fixed by exact He. auto.
  - destruct (navigateHistory_moved m direction Hne) as (Hi & Hh & _). auto.
Qed.

(** One step from a cursor in range moves it by one, up to the bounds. *)
Lemma clampIndex_step (m : model) (direction : Z) :
  direction = -1 \/ direction = 1 -> len (history m) < max_int ->
  0 <= historyIndex m <= len (history m) ->
  clampIndex m direction
  = Z.max 0 (Z.min (len (history m)) (historyIndex m + direction)).
Proof.
  intros Hd Hlen Hc. unfold clampIndex, int_add, max_int in *.
  rewrite wrap_int_small by lia.
  destruct (Z.ltb_spec (historyIndex m + direction) 0); [lia|].
  destruct (Z.ltb_spec (len (history m)) (historyIndex m + direction)); lia.
Qed.

Lemma navigateTimes_cursor (direction : Z) (n : nat) (m : model) :
  direction = -1 \/ direction = 1 -> len (history m) < max_int ->
  0 <= historyIndex m <= len (history m) ->
  history (navigateTimes direction n m) = history m
  /\ historyIndex (navigateTimes direction n m)
     = Z.max 0 (Z.min (len (history m))
                  (historyIndex m + direction * Z.of_nat n)).
Proof.
  intros Hd Hlen Hc. unfold navigateTimes.
  induction n as [|n [IHh IHi]]; [simpl; split; [reflexivity | lia]|].
  rewrite Nat.iter_succ.
  destruct (navigateHistory_cursor
              (Nat.iter n (fun m => navigateHistory m direction) m)
              direction) as (Hi & Hh).
  rewrite Hh, Hi, clampIndex_step; rewrite ?IHh, ?IHi; try lia.
  split; [reflexivity | lia].
Qed.

(** From any cursor, more steps than the history has entries end on the
    bound. *)
Lemma navigateTimes_converges (direction : Z) (n : nat) (m : model) :
  direction = -1 \/ direction = 1 -> len (history m) < max_int ->
  (Z.to_nat (len (history m)) < n)%nat ->
  historyIndex (navigateTimes direction n m)
  = if direction =? 1 then len (history m) else 0.
Proof.
  intros Hd Hlen Hn. destruct n as [|n]; [lia|].
  unfold navigateTimes. rewrite Nat.iter_succ_r.
  destruct (navigateHistory_cursor m direction) as (Hi & Hh).
  pose proof (clampIndex_range m direction) as Hr.
  destruct (navigateTimes_cursor direction n (navigateHistory m direction))
    as (_ & Hc); rewrite ?Hh, ?Hi; auto.
  unfold navigateTimes in Hc. rewrite Hc, Hh, Hi.
  pose proof (len_nonneg (history m)).
  assert (len (history m) <= Z.of_nat n) by lia.
  destruct Hd as [-> | ->]; simpl; lia.
Qed.

(** C7. One step of history navigation, back or forth, leaves the cursor
    in [0, len]; from a cursor in range it moves the cursor by one up to
    the bounds.  From any cursor, stepping back more often than the
    history has entries ends on 0 and stepping forth on len, and a step
    back at 0 or forth at len changes nothing.  When a step changes the
    cursor, the input is set to the empty text if the cursor is len and
    to the entry at the cursor otherwise, and browsing is on exactly
    below len; when it does not, the model, so the input text, is
    unchanged. *)
Theorem history_navigation (m : model) (direction : Z) :
  direction = -1 \/ direction = 1 -> len (history m) < max_int ->
  let m' := navigateHistory m direction in
  0 <= historyIndex m' <= len (history m') /\ history m' = history m
  /\ (0 <= historyIndex m <= len (history m) ->
        historyIndex m'
        = Z.max 0 (Z.min (len (history m)) (historyIndex m + direction)))
  /\ (forall n, (Z.to_nat (len (history m)) < n)%nat ->
        historyIndex (navigateTimes (-1) n m) = 0
        /\ historyIndex (navigateTimes 1 n m) = len (history m))
  /\ (historyIndex m = 0 -> navigateHistory m (-1) = m)
  /\ (historyIndex m = len (history m) -> navigateHistory m 1 = m)
  /\ (historyIndex m' <> historyIndex m ->
        browsingHist m' = (historyIndex m' <? len (history m))
        /\ (historyIndex m' = len (history m) ->
              input m' = input_SetValue "" (input m))
        /\ (historyIndex m' < len (history m) ->
              exists entry,
                index (history m) (historyIndex m') = Some entry
                /\ input m' = input_SetValue entry (input m)))
  /\ (historyIndex m' = historyIndex m -> m' = m).
Proof.
  intros Hd Hlen m'. subst m'.
  destruct (navigateHistory_cursor m direction) as (Hi & Hh).
  pose proof (clampIndex_range m direction) as Hr.
  pose proof (len_nonneg (history m)) as Hl.
  rewrite Hh, Hi.
  split; [exact Hr|]. split; [reflexivity|].
  split; [intros Hc; apply clampIndex_step; assumption|].
  split.
  { intros n Hn. split.
    - rewrite navigateTimes_converges by auto. reflexivity.
    - rewrite navigateTimes_converges by auto. reflexivity. }
  split.
  { intros H0. apply navigateHistory_fixed.
    rewrite clampIndex_step by (auto; lia). lia. }
  split.
  { intros Hend. apply navigateHistory_fixed.
    rewrite clampIndex_step by (auto; lia). lia. }
  split.
  - intros Hne.
    destruct (navigateHistory_moved m direction Hne) as (_ & _ & Hb & Ht & Hs).
    auto.
  - intros He. apply navigateHistory_fixed, He.
Qed.

End HistoryLog.

(* --------------------------------------------------------------------- *)
(** ** Submitting the input line *)
(* --------------------------------------------------------------------- *)

Section Submit.

Context `{ops : ForeignOps}.

(** The Enter branch, for an input line that is not blank. *)
Lemma Update_enter (m : model) (runes : string) (fs : FileSystem) :
  TrimSpace (input_Value (input m)) <> ""%string ->
  let text := input_Value (input m) in
  let a := appendToHistory m text fs in
  let m1 :=
    match a.1.2 with Some _ => set_err a.1.1 a.1.2 | None => a.1.1 end in
  let m2 := set_browsingHist (set_input m1 (input_Reset (input m1))) false in
  Update m (KeyMsg KeyEnter runes) fs
  = (updateWidgets m2 [sendThenRefresh m1 text] (KeyMsg KeyEnter runes), a.2).
Proof.
  intros Hb. apply nonempty_true in Hb. simpl. rewrite Hb.
  destruct (appendToHistory _ _ _) as [[m0 e] fs0]. reflexivity.
Qed.

(** C8. When the input line is accepted by the history log and its
    durable write fails, handling Enter puts the error in the session's
    error field, keeps the new entry in the in-memory history with the
    cursor behind it, and still launches the sequence that sends the text
    and refreshes after the delay. *)
Theorem failed_history_write_surfaced (m : model) (runes : string)
    (fs : FileSystem) (e : error) :
  let text := input_Value (input m) in
  TrimSpace text <> ""%string -> last (history m) <> Some text ->
  writeFails m text fs e ->
  let r := Update m (KeyMsg KeyEnter runes) fs in
  err r.1.1 = Some e
  /\ history r.1.1 = history m ++ [text]
  /\ historyIndex r.1.1 = len (history r.1.1)
  /\ exists others,
       r.1.2 =
         cmd_Batch
           (cmd_Sequence [cmd_sendMessage (channelID m) text; cmd_refreshTick]
            :: others).
Proof.
  intros text Hb Hd Hw r. subst r. rewrite Update_enter by exact Hb.
  fold text.
  destruct (appendToHistory_accepted m text fs Hb Hd)
    as (Hh & Hi & _ & _ & _ & _ & Hc & He).
  assert (Hfail : (appendToHistory m text fs).1.2 = Some e).
  { rewrite He. unfold writeFails in Hw.
    destruct (OpenFile_append _ _) as [[file|e'] fs1];
      [exact Hw | congruence]. }
  rewrite Hfail. cbv zeta.
  match goal with
  | |- context [updateWidgets ?m2 ?c ?k] =>
      destruct (updateWidgets_fields m2 c k) as (Hh' & Hi' & _ & He' & _);
      unfold updateWidgets in *;
      destruct (input_Update (input m2) k) as [ti tiCmd];
      destruct (viewport_Update _ k) as [vp vpCmd]
  end.
  simpl in *. rewrite Hi, Hh.
  repeat split; try reflexivity.
  exists [tiCmd; vpCmd]. unfold sendThenRefresh. simpl. rewrite Hc.
  reflexivity.
Qed.

(** C10. When the input line equals the last history entry, handling
    Enter leaves the history and its cursor as they are and writes
    nothing, while browsing mode is switched off and the input is reset
    (and then handed the key); so a cursor below len stays below len with
    browsing mode off. *)
Theorem duplicate_submit_keeps_cursor (m : model) (runes : string)
    (fs : FileSystem) :
  let text := input_Value (input m) in
  TrimSpace text <> ""%string -> last (history m) = Some text ->
  let msg := KeyMsg KeyEnter runes in
  let r := Update m msg fs in
  historyIndex r.1.1 = historyIndex m /\ history r.1.1 = history m
  /\ r.2 = fs /\ browsingHist r.1.1 = false
  /\ input r.1.1 = (input_Update (input_Reset (input m)) msg).1
  /\ (historyIndex m < len (history m) ->
        historyIndex r.1.1 < len (history r.1.1)
        /\ browsingHist r.1.1 = false).
Proof.
  intros text Hb Hd msg r. subst r msg. rewrite Update_enter by exact Hb.
  fold text. rewrite appendToHistory_rejected by auto. cbv zeta. simpl.
  match goal with
  | |- context [updateWidgets ?m2 ?c ?k] =>
      destruct (updateWidgets_fields m2 c k) as (Hh & Hi & Hbr & _ & Hin)
  end.
  simpl in *. rewrite Hh, Hi, Hbr, Hin. repeat split; auto.
Qed.

End Submit.

(** C6, on a fresh history. *)
Lemma history_append_rules_witness :
  let r := @appendToHistory Demo.foreign (Demo.ops true) (Demo.start [])
             "hello" Demo.noFiles in
  history r.1.1 = ["hello"%string] /\ historyIndex r.1.1 = 1.
Proof.
  intros r.
  destruct (@history_append_rules Demo.foreign (Demo.ops true) (Demo.start [])
              "hello" Demo.noFiles) as (_ & _ & _ & Hacc & _).
  destruct Hacc as (Hh & Hi & _).
  - rewrite <- TrimSpace_empty. vm_compute. discriminate.
  - vm_compute. discriminate.
  - subst r. rewrite Hi, Hh. split; reflexivity.
Defined.

(** C7, one step back from the end of a history of two. *)
Lemma history_navigation_witness :
  let m' := @navigateHistory Demo.foreign (Demo.ops true)
              (Demo.start ["a"; "b"]%string) (-1) in
  0 <= historyIndex m' <= len (history m').
Proof.
  apply (@history_navigation Demo.foreign (Demo.ops true)
           (Demo.start ["a"; "b"]%string) (-1)).
  - left. reflexivity.
  - vm_compute. reflexivity.
Defined.

(** C8, on a disk that refuses every open. *)
Lemma failed_history_write_surfaced_witness :
  let m := @set_input Demo.foreign (Demo.start ["a"]%string) "hello"%string in
  let r := @Update Demo.foreign (Demo.ops true) m
             (@KeyMsg Demo.foreign KeyEnter "") Demo.brokenDisk in
  err r.1.1 = Some "read-only file system"%string.
Proof.
  intros m.
  apply (@failed_history_write_surfaced Demo.foreign (Demo.ops true) m ""
           Demo.brokenDisk "read-only file system"%string).
  - vm_compute. discriminate.
  - vm_compute. discriminate.
  - vm_compute. reflexivity.
Defined.

(** C10, reached from a session start: one entry, recalled with Up and
    submitted again. *)
Lemma duplicate_submit_keeps_cursor_witness :
  let m := (@Update Demo.foreign (Demo.ops true) (Demo.start ["a"]%string)
              (@KeyMsg Demo.foreign KeyUp "") Demo.noFiles).1.1 in
  let r := @Update Demo.foreign (Demo.ops true) m
             (@KeyMsg Demo.foreign KeyEnter "") Demo.noFiles in
  historyIndex r.1.1 < len (history r.1.1) /\ browsingHist r.1.1 = false.
Proof.
  intros m.
  apply (@duplicate_submit_keeps_cursor Demo.foreign (Demo.ops true) m ""
           Demo.noFiles).
  - vm_compute. discriminate.
  - vm_compute. reflexivity.
  - vm_compute. reflexivity.
Defined.

(* --------------------------------------------------------------------- *)
(** ** Timestamps from ids *)
(* --------------------------------------------------------------------- *)

(** The mantissa of a valid binary64 number has at most 53 bits, and
    exactly 53 above the smallest exponent. *)
Lemma digits2_pos_bounds (p : positive) :
  2 ^ (Z.pos (digits2_pos p) - 1) <= Z.pos p < 2 ^ Z.pos (digits2_pos p).
Proof.
  induction p as [p IH|p IH|]; simpl digits2_pos;
    rewrite ?Pos2Z.inj_succ.
  - replace (Z.succ (Z.pos (digits2_pos p)) - 1)
      with (Z.succ (Z.pos (digits2_pos p) - 1)) by lia.
    rewrite !Z.pow_succ_r by lia. lia.
  - replace (Z.succ (Z.pos (digits2_pos p)) - 1)
      with (Z.succ (Z.pos (digits2_pos p) - 1)) by lia.
    rewrite !Z.pow_succ_r by lia. lia.
  - simpl. lia.
Qed.

Lemma digits2_pos_unique (p : positive) (k : Z) :
  2 ^ (k - 1) <= Z.pos p < 2 ^ k -> Z.pos (digits2_pos p) = k.
Proof.
  intros [Hl Hu]. pose proof (digits2_pos_bounds p) as [Hl' Hu'].
  set (d := Z.pos (digits2_pos p)) in *.
  assert (0 < d) by (subst d; lia).
  destruct (Z.lt_trichotomy d k) as [Hlt|[Heq|Hgt]]; [|exact Heq|].
  - assert (2 ^ d <= 2 ^ (k - 1)) by (apply Z.pow_le_mono_r; lia). lia.
  - assert (k <= 0 \/ 0 < k) as [Hk|Hk] by lia.
    + assert (2 ^ k <= 2 ^ 0) by (apply Z.pow_le_mono_r; lia).
      simpl in *. lia.
    + assert (2 ^ k <= 2 ^ (d - 1)) by (apply Z.pow_le_mono_r; lia). lia.
Qed.

Lemma valid_finite (s : bool) (m : positive) (e : Z) :
  valid_binary 53 1024 (S754_finite s m e) = true ->
  - 1074 <= e <= 971 /\ Z.pos m < 2 ^ 53
  /\ (- 1074 < e -> 2 ^ 52 <= Z.pos m).
Proof.
  unfold valid_binary, bounded, canonical_mantissa, fexp, emin.
  rewrite andb_true_iff, Z.eqb_eq, Z.leb_le.
  pose proof (digits2_pos_bounds m) as [Hl Hu].
  set (d := Z.pos (digits2_pos m)) in *.
  intros [Hc He].
  assert (Hd : d <= 53) by lia.
  split; [lia|]. split.
  - assert (2 ^ d <= 2 ^ 53) by (apply Z.pow_le_mono_r; lia). lia.
  - intros Hn. assert (d = 53) as Hd53 by lia. rewrite Hd53 in Hl. exact Hl.
Qed.

(** An integer below [2 ^ 53], scaled by a power of two in range, is a
    binary64 number. *)
Lemma representable (p c : Z) :
  0 < p < 2 ^ 53 -> - 1022 <= c <= 971 ->
  exists g, valid_binary 53 1024 g = true
            /\ scaled g = Some (p * 2 ^ (c + 1074)).
Proof.
  intros Hp Hc. destruct p as [|p|p]; try lia.
  pose proof (digits2_pos_bounds p) as [Hl Hu].
  set (d := Z.pos (digits2_pos p)) in *.
  assert (Hd0 : 0 < d) by (subst d; lia).
  assert (Hd : d <= 53).
  { destruct (Z.le_gt_cases d 53) as [|Hgt]; [assumption|].
    assert (2 ^ 53 <= 2 ^ (d - 1)) by (apply Z.pow_le_mono_r; lia). lia. }
  assert (Hpow : 0 < 2 ^ (53 - d)) by (apply Z.pow_pos_nonneg; lia).
  assert (Hm : Z.pos (Z.to_pos (Z.pos p * 2 ^ (53 - d)))
               = Z.pos p * 2 ^ (53 - d)) by (apply Z2Pos.id; lia).
  exists (S754_finite false (Z.to_pos (Z.pos p * 2 ^ (53 - d))) (c - (53 - d))).
  split.
  - unfold valid_binary, bounded, canonical_mantissa, fexp, emin.
    rewrite andb_true_iff, Z.eqb_eq, Z.leb_le.
    rewrite (digits2_pos_unique _ 53).
    + lia.
    + rewrite Hm. split.
      * replace (53 - 1) with ((d - 1) + (53 - d)) by lia.
        rewrite Z.pow_add_r by lia.
        apply Z.mul_le_mono_nonneg_r; lia.
      * replace 53 with (d + (53 - d)) at 2 by lia.
        rewrite Z.pow_add_r by lia.
        apply Z.mul_lt_mono_pos_r; lia.
  - unfold scaled. rewrite Hm. apply (f_equal Some).
    replace (c + 1074) with ((53 - d) + (c - (53 - d) + 1074)) by lia.
    rewrite (Z.pow_add_r 2 (53 - d) (c - (53 - d) + 1074)) by lia. ring.
Qed.

(** [int64(f)] is the whole part of [f]. *)
Lemma trunc_of_bounds (u : float64 -> Z) (f : float64) (v s : Z) :
  valid_binary 53 1024 f = true -> scaled f = Some v ->
  0 <= s < 2 ^ 63 -> s * 2 ^ 1074 <= v < (s + 1) * 2 ^ 1074 ->
  int64_of_float u f = s.
Proof.
  intros Hv Hs Hr Hb.
  assert (HK : 0 < 2 ^ 1074) by (apply Z.pow_pos_nonneg; lia).
  set (K := 2 ^ 1074) in *.
  assert (Ht : trunc_float f = Some s).
  { destruct f as [sg| |  |sg m e]; try discriminate.
    - simpl in Hs. injection Hs as <-. simpl. apply (f_equal Some). nia.
    - apply valid_finite in Hv as (He & _ & _).
      simpl in Hs. injection Hs as <-.
      assert (HQ : 0 < 2 ^ (e + 1074)) by (apply Z.pow_pos_nonneg; lia).
      destruct sg; [nia|]. simpl. apply (f_equal Some).
      destruct (Z.le_gt_cases 0 e) as [He0|He0].
      + rewrite Z.shiftl_mul_pow2 by lia.
        assert (2 ^ (e + 1074) = 2 ^ e * K) as Hpow
          by (subst K; apply Z.pow_add_r; lia).
        rewrite Hpow in Hb. nia.
      + rewrite Z.shiftl_div_pow2 by lia.
        assert (HR : 0 < 2 ^ (- e)) by (apply Z.pow_pos_nonneg; lia).
        assert (K = 2 ^ (- e) * 2 ^ (e + 1074)) as HKe.
        { subst K. rewrite <- Z.pow_add_r by lia. f_equal. lia. }
        rewrite HKe in Hb. symmetry.
        apply Z.div_unique_pos with (r := Z.pos m - s * 2 ^ (- e)); nia. }
  unfold int64_of_float. rewrite Ht.
  destruct (Z.leb_spec (- 2 ^ 63) s); [|lia].
  destruct (Z.ltb_spec s (2 ^ 63)); [reflexivity | lia].
Qed.

(** A nearest binary64 number to [s + r / d] lies in [s, s + 1) when [d]
    is below [2 ^ 20] and [s] below [2 ^ 34]: the numbers [s] and
    [s + 1 - 2 ^ -19] are binary64 numbers, and the latter is closer to
    the value than [s + 1] is. *)
Lemma nearest_seconds (n d s r : Z) (f : float64) :
  nearest n d f -> n = s * d + r -> 0 <= r < d -> d < 2 ^ 20 ->
  0 <= s < 2 ^ 34 ->
  exists v, scaled f = Some v /\ s * 2 ^ 1074 <= v < (s + 1) * 2 ^ 1074.
Proof.
  intros (Hvalid & v & Hv & Hmin) Hn Hr Hd Hs.
  exists v. split; [exact Hv|].
  assert (HL : 0 < 2 ^ 1055) by (apply Z.pow_pos_nonneg; lia).
  assert (HK : 2 ^ 1074 = 524288 * 2 ^ 1055)
    by (change 1074 with (19 + 1055); rewrite Z.pow_add_r by lia; reflexivity).
  rewrite HK in *. set (L := 2 ^ 1055) in *. subst n.
  split.
  - destruct (Z.le_gt_cases (s * (524288 * L)) v) as [|Hlt]; [assumption|].
    exfalso.
    assert (Hg : exists g, valid_binary 53 1024 g = true
                           /\ scaled g = Some (s * (524288 * L))).
    { destruct (Z.eq_dec s 0) as [->|Hs0].
      - exists (S754_zero false). split; reflexivity.
      - destruct (representable s 0) as (g & Hg1 & Hg2); [lia | lia |].
        exists g. split; [exact Hg1|]. rewrite Hg2. change (0 + 1074) with 1074.
        rewrite HK. reflexivity. }
    destruct Hg as (g & Hg1 & Hg2). specialize (Hmin g _ Hg1 Hg2).
    assert (v * d < s * (524288 * L) * d) by nia.
    assert (0 <= r * L) by nia.
    lia.
  - destruct (Z.lt_ge_cases v ((s + 1) * (524288 * L))) as [|Hge];
      [assumption|].
    exfalso.
    destruct (representable ((s + 1) * 524288 - 1) (- 19)) as (g & Hg1 & Hg2);
      [lia | lia |].
    change (- 19 + 1074) with 1055 in Hg2. fold L in Hg2.
    specialize (Hmin g _ Hg1 Hg2).
    assert ((s + 1) * (524288 * L) * d <= v * d) by nia.
    assert (L * r < L * d) by nia.
    assert (0 <= L * r) by nia.
    assert (L * d < 1048576 * (L * d - L * r)) by nia.
    lia.
Qed.

Lemma digitVal_range (c : ascii) (v : Z) : digitVal c = Some v -> 0 <= v <= 9.
Proof.
  unfold digitVal.
  destruct (Z.leb_spec 48 (Z.of_N (N_of_ascii c))); simpl; [|discriminate].
  destruct (Z.leb_spec (Z.of_N (N_of_ascii c)) 57); [|discriminate].
  intros [= <-]. lia.
Qed.

Lemma digitsValue_range (l : list ascii) (acc v : Z) :
  digitsValue acc l = Some v ->
  exists w, v = acc * 10 ^ Z.of_nat (length l) + w
            /\ 0 <= w < 10 ^ Z.of_nat (length l).
Proof.
  revert acc. induction l as [|c l IH]; intros acc; simpl digitsValue.
  - intros [= <-]. exists 0. simpl. lia.
  - destruct (digitVal c) as [dg|] eqn:Hdg; [|discriminate].
    intros Hv. apply IH in Hv as (w & -> & Hw).
    apply digitVal_range in Hdg.
    assert (Hp : 0 < 10 ^ Z.of_nat (length l)) by (apply Z.pow_pos_nonneg; lia).
    exists (dg * 10 ^ Z.of_nat (length l) + w).
    change (length (c :: l)) with (S (length l)).
    rewrite Nat2Z.inj_succ, Z.pow_succ_r by lia. nia.
Qed.

Lemma length_list_ascii (s : string) :
  length (list_ascii_of_string s) = String.length s.
Proof. induction s as [|c s IH]; simpl; congruence. Qed.

Lemma digitsOf_range (s : string) (v : Z) :
  digitsOf s = Some v -> 0 <= v < 10 ^ fractionDigits s.
Proof.
  unfold digitsOf, fractionDigits. intros Hv.
  apply digitsValue_range in Hv as (w & -> & Hw).
  rewrite length_list_ascii in Hw. lia.
Qed.

(** Below 2 the binary64 numbers stop at [2 - 2 ^ -52]. *)
Lemma below_two (g : float64) (w : Z) :
  valid_binary 53 1024 g = true -> scaled g = Some w ->
  w < 2 * 2 ^ 1074 -> w <= 2 * 2 ^ 1074 - 2 ^ 1022.
Proof.
  intros Hv Hs Hw.
  assert (HQ : 0 < 2 ^ 1022) by (apply Z.pow_pos_nonneg; lia).
  assert (HK : 2 ^ 1074 = 4503599627370496 * 2 ^ 1022)
    by (change 1074 with (52 + 1022); rewrite Z.pow_add_r by lia; reflexivity).
  rewrite HK in *. set (Q := 2 ^ 1022) in *.
  destruct g as [sg| | |sg m e]; try discriminate.
  - simpl in Hs. injection Hs as <-. lia.
  - apply valid_finite in Hv as (He & Hm & Hn).
    simpl in Hs. injection Hs as <-.
    assert (Ht : 0 < 2 ^ (e + 1074)) by (apply Z.pow_pos_nonneg; lia).
    destruct sg; [nia|].
    destruct (Z.le_gt_cases e (- 52)) as [Hle|Hgt].
    + assert (2 ^ (e + 1074) <= Q)
        by (subst Q; apply Z.pow_le_mono_r; lia).
      change (2 ^ 53) with 9007199254740992 in Hm. nia.
    + exfalso. specialize (Hn ltac:(lia)).
      assert (2 * Q <= 2 ^ (e + 1074)).
      { subst Q. change (2 * 2 ^ 1022) with (2 ^ 1 * 2 ^ 1022).
        rewrite <- Z.pow_add_r by lia. apply Z.pow_le_mono_r; lia. }
      change (2 ^ 52) with 4503599627370496 in Hn. nia.
Qed.

Section Timestamps.

Context `{spec : SortSliceSpec}.

Lemma format_fields (message : Message) :
  id (format message) = Ts message
  /\ timestamp (format message) = timestampOf (Ts message).
Proof. unfold format. destruct (UsernameForMessage message). auto. Qed.

Lemma accepted_covers (batch : list Message) (ids : gmap string bool)
    (message : Message) :
  message ∈ batch -> seen ids (Ts message) = false ->
  exists message', message' ∈ accepted ids batch /\ Ts message' = Ts message.
Proof.
  revert ids. induction batch as [|x rest IH]; intros ids Hin Hs.
  - apply elem_of_nil in Hin as [].
  - simpl. destruct (seen ids (Ts x)) eqn:Hx.
    + apply elem_of_cons in Hin as [->|Hin]; [congruence|]. apply IH; auto.
    + destruct (decide (Ts x = Ts message)) as [He|Hne].
      * exists x. split; [apply elem_of_cons; auto | exact He].
      * apply elem_of_cons in Hin as [->|Hin]; [congruence|].
        destruct (IH (<[Ts x := true]> ids) Hin) as (y & Hy & Hty).
        { rewrite seen_insert. destruct (decide _); congruence. }
        exists y. split; [apply elem_of_cons; auto | exact Hty].
Qed.

Lemma hasNew_of_unseen (m : model) (batch : list Message) (message : Message) :
  message ∈ batch -> seen (messageIDs m) (Ts message) = false ->
  hasNew m batch = true.
Proof.
  intros Hin Hs. unfold hasNew. apply existsb_exists. exists message.
  split; [apply list_elem_of_In, Hin | rewrite Hs; reflexivity].
Qed.

(** C9, amended. Every message of a fetched batch whose id is not stored
    yet is stored under its id with the timestamp
    [time.Unix(int64(f), 0)], [f] being what [strconv.ParseFloat] returned
    for the id and its error being dropped; the merge itself cannot fail.
    When [ParseFloat] reports a syntax error it returns 0, and the
    timestamp is the Unix epoch.  When the id is digits, a point and at
    most six digits, with an integer part below [2 ^ 34], and [ParseFloat]
    returns a nearest [float64], the timestamp is the integer part: two
    such ids that differ in their fraction only get equal timestamps. *)
Theorem timestamp_from_id (m : model) (batch : list Message)
    (fs : FileSystem) :
  let m' := (Update m (fetchMessagesMsg (Some batch) None) fs).1.1 in
  (forall message, message ∈ batch ->
     seen (messageIDs m) (Ts message) = false ->
     exists fm, fm ∈ messages m' /\ id fm = Ts message
       /\ timestamp fm
          = time_Unix (int64_of_float int64_unrepresentable
                         (ParseFloat (Ts message)).1))
  /\ (forall ts, ParseFloat ts = (S754_zero false, Some ErrSyntax) ->
        timestampOf ts = time_Unix 0)
  /\ (forall ip frac s r,
        digitsOf ip = Some s -> digitsOf frac = Some r ->
        s < 2 ^ 34 -> fractionDigits frac <= 6 ->
        nearest (s * 10 ^ fractionDigits frac + r) (10 ^ fractionDigits frac)
          (ParseFloat (decimalId ip frac)).1 ->
        timestampOf (decimalId ip frac) = time_Unix s).
Proof.
  intros m'. split; [|split].
  - intros message Hin Hs.
    destruct (accepted_covers batch _ message Hin Hs) as (x & Hx & Hts).
    pose proof (hasNew_of_unseen m batch message Hin Hs) as Hn.
    pose proof (fetch_messages_perm m batch fs Hn) as Hperm.
    destruct (format_fields x) as (Hid & Htime).
    exists (format x). fold m' in Hperm. rewrite Hperm.
    split; [|split].
    + apply elem_of_app. right. apply list_elem_of_fmap. exists x. auto.
    + congruence.
    + rewrite Htime, Hts. reflexivity.
  - intros ts Hp. unfold timestampOf. rewrite Hp. reflexivity.
  - intros ip frac s r Hip Hfrac Hs Hk Hnear.
    apply digitsOf_range in Hip as [Hs0 _].
    apply digitsOf_range in Hfrac.
    pose proof (Zle_0_nat (String.length frac)) as Hk0.
    fold (fractionDigits frac) in Hk0.
    assert (Hd : 10 ^ fractionDigits frac <= 10 ^ 6)
      by (apply Z.pow_le_mono_r; lia).
    destruct (nearest_seconds _ _ s r _ Hnear) as (v & Hv & Hb);
      [reflexivity | lia | lia | lia |].
    unfold timestampOf. f_equal.
    destruct Hnear as (Hvalid & _).
    apply (trunc_of_bounds _ _ v); auto. lia.
Qed.

End Timestamps.

(** Every binary64 number nearest to 1.99999999999999999999 truncates
    to 2. *)
Lemma long_fraction_nearest_two (f : float64) (u : float64 -> Z) :
  nearest 199999999999999999999 (10 ^ 20) f -> int64_of_float u f = 2.
Proof.
  intros (Hvalid & v & Hv & Hmin).
  assert (Htwo : scaled Demo.two = Some (2 * 2 ^ 1074)).
  { unfold Demo.two, scaled. apply (f_equal Some).
    change (- 51 + 1074) with (1 + 1022). change 1074 with (52 + 1022).
    rewrite !Z.pow_add_r by lia. change (2 ^ 52) with 4503599627370496.
    change (2 ^ 1) with 2.
    change (Z.pos 4503599627370496) with 4503599627370496.
    ring. }
  pose proof (Hmin Demo.two _ eq_refl Htwo) as Hle.
  assert (HQ : 0 < 2 ^ 1022) by (apply Z.pow_pos_nonneg; lia).
  pose proof (below_two f v Hvalid Hv) as Hbelow.
  assert (HK : 2 ^ 1074 = 4503599627370496 * 2 ^ 1022)
    by (change 1074 with (52 + 1022); rewrite Z.pow_add_r by lia; reflexivity).
  apply (trunc_of_bounds _ _ v); auto; [lia|].
  rewrite HK in *. set (Q := 2 ^ 1022) in *.
  change (10 ^ 20) with 100000000000000000000 in *.
  split.
  - destruct (Z.le_gt_cases (2 * (4503599627370496 * Q)) v); [assumption|].
    specialize (Hbelow ltac:(lia)). lia.
  - lia.
Qed.

Lemma nearest_exact (n d : Z) (f : float64) (v : Z) :
  valid_binary 53 1024 f = true -> scaled f = Some v ->
  v * d = n * 2 ^ 1074 -> nearest n d f.
Proof.
  intros Hvalid Hv He. split; [exact Hvalid|]. exists v. split; [exact Hv|].
  intros g w _ _. rewrite He, Z.sub_diag. apply Z.abs_nonneg.
Qed.

Lemma two_is_nearest : nearest 199999999999999999999 (10 ^ 20) Demo.two.
Proof.
  assert (Htwo : scaled Demo.two = Some (2 * 2 ^ 1074)).
  { unfold Demo.two, scaled. apply (f_equal Some).
    change (- 51 + 1074) with (1 + 1022). change 1074 with (52 + 1022).
    rewrite !Z.pow_add_r by lia. change (2 ^ 52) with 4503599627370496.
    change (2 ^ 1) with 2.
    change (Z.pos 4503599627370496) with 4503599627370496.
    ring. }
  split; [reflexivity|]. exists (2 * 2 ^ 1074). split; [exact Htwo|].
  intros g w Hg Hw. pose proof (below_two g w Hg Hw) as Hbelow.
  assert (HQ : 0 < 2 ^ 1022) by (apply Z.pow_pos_nonneg; lia).
  assert (HK : 2 ^ 1074 = 4503599627370496 * 2 ^ 1022)
    by (change 1074 with (52 + 1022); rewrite Z.pow_add_r by lia; reflexivity).
  rewrite HK in *. set (Q := 2 ^ 1022) in *.
  change (10 ^ 20) with 100000000000000000000.
  destruct (Z.le_gt_cases (2 * (4503599627370496 * Q)) w); [lia|].
  specialize (Hbelow ltac:(lia)). lia.
Qed.

(** C9 as stated fails: the ids 1.5 and 1.99999999999999999999 differ in
    their fraction only, and a [ParseFloat] that returns the nearest
    [float64] puts the first at second 1 and the second at second 2. *)
Lemma long_fraction_crosses_second :
  let a := decimalId "1" "5" in
  let b := decimalId "1" "99999999999999999999" in
  digitsOf "1" = Some 1 /\ digitsOf "5" = Some 5
  /\ digitsOf "99999999999999999999" = Some 99999999999999999999
  /\ nearest (1 * 10 ^ 1 + 5) (10 ^ 1) (Demo.parseFloat a).1
  /\ nearest (1 * 10 ^ 20 + 99999999999999999999) (10 ^ 20)
       (Demo.parseFloat b).1
  /\ @timestampOf Demo.foreign (Demo.ops true) a = time_Unix 1
  /\ @timestampOf Demo.foreign (Demo.ops true) b = time_Unix 2
  /\ time_Unix 1 <> time_Unix 2
  /\ forall f u,
       nearest (1 * 10 ^ 20 + 99999999999999999999) (10 ^ 20) f ->
       int64_of_float u f = 2.
Proof.
  intros a b.
  assert (Ha : Demo.parseFloat a
               = (S754_finite false 6755399441055744 (- 52), None))
    by (vm_compute; reflexivity).
  assert (Hb : Demo.parseFloat b = (Demo.two, None))
    by (vm_compute; reflexivity).
  split; [reflexivity|]. split; [reflexivity|]. split; [reflexivity|].
  split.
  { rewrite Ha.
    apply (nearest_exact _ _ _ (6755399441055744 * 2 ^ 1022));
      [reflexivity | reflexivity |].
    change 1074 with (52 + 1022). rewrite Z.pow_add_r by lia.
    change (2 ^ 52) with 4503599627370496. change (10 ^ 1) with 10. ring. }
  split; [rewrite Hb; exact two_is_nearest|].
  split; [vm_compute; reflexivity|]. split; [vm_compute; reflexivity|].
  split; [vm_compute; discriminate|].
  intros f u. apply long_fraction_nearest_two.
Qed.

(** C9, amended, on an id of the year 2023. *)
Lemma timestamp_from_id_witness :
  @timestampOf Demo.foreign (Demo.ops true) (decimalId "1700000000" "5")
  = time_Unix 1700000000.
Proof.
  destruct (@timestamp_from_id Demo.foreign (Demo.ops true)
              (demo_sort_spec true) (Demo.start []) [] Demo.noFiles)
    as (_ & _ & Hsec).
  apply (Hsec "1700000000" "5" 1700000000 5)%string.
  - reflexivity.
  - reflexivity.
  - reflexivity.
  - vm_compute. discriminate.
  - assert (Hp : Demo.parseFloat (decimalId "1700000000" "5")
                 = (S754_finite false 7130316802097152 (- 22), None))
      by (vm_compute; reflexivity).
    simpl ParseFloat. rewrite Hp.
    apply (nearest_exact _ _ _ (7130316802097152 * 2 ^ 1052));
      [reflexivity | reflexivity |].
    change 1074 with (22 + 1052). rewrite Z.pow_add_r by lia.
    change (2 ^ 22) with 4194304.
    change (fractionDigits "5") with 1. change (10 ^ 1) with 10. ring.
Defined.

(* --------------------------------------------------------------------- *)
(** ** The history log over a session *)
(* --------------------------------------------------------------------- *)

Section LogOverRuns.

Context {F : Foreign} {ops : ForeignOps}.

Lemma sameLog_refl (m : model) : sameLog m m.
Proof. repeat split. Qed.

Lemma sameLog_trans (m1 m2 m3 : model) :
  sameLog m1 m2 -> sameLog m2 m3 -> sameLog m1 m3.
Proof.
  unfold sameLog. intros (? & ? & ?) (? & ? & ?). repeat split; congruence.
Qed.

Lemma updateWidgets_sameLog (m : model) (cmds : list Cmd) (msg : Msg) :
  sameLog m (updateWidgets m cmds msg).1.
Proof.
  destruct (updateWidgets_fields m cmds msg) as (Hh & Hi & Hb & _).
  split; [exact Hh|]. split; [exact Hi | exact Hb].
Qed.

Lemma mergeMessages_sameLog (m : model) (batch : list Message) :
  sameLog m (mergeMessages m batch)
  /\ err (mergeMessages m batch) = err m
  /\ ready (mergeMessages m batch) = ready m.
Proof.
  rewrite mergeMessages_spec. destruct (hasNew m batch); repeat split.
Qed.

(** Events that are not keys leave the history log and the files alone. *)
Lemma Update_other_log (m : model) (msg : Msg) (fs : FileSystem) :
  isKey msg = false ->
  sameLog m (Update m msg fs).1.1 /\ (Update m msg fs).2 = fs.
Proof.
  destruct msg as [k r|w h| |t|[batch|] [e|]|[e|]|n]; try discriminate;
    intros _; simpl; (split; [|reflexivity]);
    try apply sameLog_refl; try (repeat split; fail).
  - eapply sameLog_trans; [|apply updateWidgets_sameLog].
    destruct (ready m); repeat split.
  - apply (updateWidgets_sameLog (updateViewportContent m)).
  - eapply sameLog_trans; [|apply updateWidgets_sameLog].
    apply mergeMessages_sameLog.
  - apply updateWidgets_sameLog.
Qed.

(** What [appendToHistory] does, by cases. *)
Lemma appendToHistory_cases (m : model) (message : string) (fs : FileSystem) :
  let r := appendToHistory m message fs in
  (r = (m, None, fs)
   /\ (TrimSpace message = ""%string \/ last (history m) = Some message))
  \/ (TrimSpace message <> ""%string /\ last (history m) <> Some message
      /\ history r.1.1 = history m ++ [message]
      /\ historyIndex r.1.1 = len (history m ++ [message])
      /\ browsingHist r.1.1 = browsingHist m).
Proof.
  intros r. subst r.
  destruct (decide (TrimSpace message = ""%string)) as [Hb|Hb].
  { left. split; [apply appendToHistory_rejected|]; auto. }
  destruct (decide (last (history m) = Some message)) as [Hd|Hd].
  { left. split; [apply appendToHistory_rejected|]; auto. }
  right. destruct (appendToHistory_accepted m message fs Hb Hd)
    as (Hh & Hi & _ & Hbr & _).
  auto.
Qed.

(** The Enter key, by cases: the log after it, and the files. *)
Lemma Update_enter_log (m : model) (runes : string) (fs : FileSystem) :
  let r := Update m (KeyMsg KeyEnter runes) fs in
  (history r.1.1 = history m /\ historyIndex r.1.1 = historyIndex m
   /\ (browsingHist r.1.1 = browsingHist m \/ browsingHist r.1.1 = false)
   /\ r.2 = fs /\ ~ acceptedSubmit m (KeyMsg KeyEnter runes))
  \/ (acceptedSubmit m (KeyMsg KeyEnter runes)
      /\ history r.1.1 = history m ++ [input_Value (input m)]
      /\ historyIndex r.1.1 = len (history r.1.1)
      /\ browsingHist r.1.1 = false).
Proof.
  intros r. subst r.
  destruct (decide (TrimSpace (input_Value (input m)) = ""%string)) as [Hb|Hb].
  { left. simpl. rewrite (proj2 (nonempty_false _) Hb).
    destruct (updateWidgets_sameLog m [] (KeyMsg KeyEnter runes))
      as (Hh & Hi & Hbr).
    repeat split; auto. intros (r' & _ & Hn & _). contradiction. }
  rewrite Update_enter by exact Hb. cbv zeta.
  set (text := input_Value (input m)).
  match goal with
  | |- context [updateWidgets ?m2 ?c ?k] =>
      destruct (updateWidgets_sameLog m2 c k) as (Hh & Hi & Hbr)
  end.
  simpl fst. simpl snd. rewrite Hh, Hi, Hbr. clear Hh Hi Hbr.
  destruct (appendToHistory_cases m text fs) as [[Hr [Hc|Hc]]|Hacc].
  - contradiction.
  - left. rewrite Hr. simpl. repeat split; auto.
    intros (r' & _ & _ & Hn). contradiction.
  - right. destruct Hacc as (_ & Hd & Hh & Hi & _).
    split; [exists runes; auto|].
    destruct ((appendToHistory m text fs).1.2); simpl; rewrite Hh, Hi; auto.
Qed.

Lemma navigateHistory_cursorInRange (m : model) (direction : Z) :
  cursorInRange m -> cursorInRange (navigateHistory m direction).
Proof.
  intros Hm.
  destruct (Z.eq_dec (clampIndex m direction) (historyIndex m)) as [He|Hne].
  - rewrite navigateHistory_fixed by exact He. exact Hm.
  - destruct (navigateHistory_moved m direction Hne) as (Hi & Hh & Hb & _).
    pose proof (clampIndex_range m direction) as Hr.
    unfold cursorInRange. rewrite Hi, Hh, Hb. split; [exact Hr|].
    intros Hlt. apply Z.ltb_lt in Hlt. exact Hlt.
Qed.

Lemma sameLog_cursorInRange (m m' : model) :
  sameLog m m' -> cursorInRange m -> cursorInRange m'.
Proof.
  unfold sameLog, cursorInRange. intros (-> & -> & ->) Hm. exact Hm.
Qed.

Lemma Update_cursorInRange (m : model) (msg : Msg) (fs : FileSystem) :
  cursorInRange m -> cursorInRange (Update m msg fs).1.1.
Proof.
  intros Hm. destruct (isKey msg) eqn:Hk.
  - destruct msg as [[| | | | |code] runes| | | | | |]; try discriminate.
    + exact Hm.
    + exact Hm.
    + destruct (Update_enter_log m runes fs)
        as [(Hh & Hi & Hb & _)|(_ & Hh & Hi & Hb)];
        unfold cursorInRange in *; rewrite ?Hi, ?Hh.
      * split; [tauto|]. destruct Hb as [-> | ->]; [tauto | discriminate].
      * rewrite Hb.
        pose proof (len_nonneg (history m ++ [input_Value (input m)])).
        split; [lia | discriminate].
    + apply navigateHistory_cursorInRange, Hm.
    + apply navigateHistory_cursorInRange, Hm.
    + eapply sameLog_cursorInRange; [|exact Hm].
      apply (updateWidgets_sameLog m []).
  - eapply sameLog_cursorInRange; [|exact Hm].
    apply Update_other_log, Hk.
Qed.

Lemma run_cursorInRange (msgs : list Msg) (m : model) (fs : FileSystem) :
  cursorInRange m -> cursorInRange (run m msgs fs).1.
Proof.
  revert m fs. induction msgs as [|msg rest IH]; intros m fs Hm; [exact Hm|].
  simpl. pose proof (Update_cursorInRange m msg fs Hm) as Hu.
  destruct (Update m msg fs) as [[m1 c] fs1]. apply IH, Hu.
Qed.

Lemma initialModel_cursorInRange (channel name file : string)
    (ti : textinput_Model) (vp : viewport_Model) (lines : list string) :
  cursorInRange (initialModel channel name file ti vp lines).
Proof.
  unfold cursorInRange. simpl.
  pose proof (len_nonneg lines). split; [lia | discriminate].
Qed.

(** X1. In every state a session reaches from its start, the history
    cursor is in [0, len], and it is below len whenever browsing mode is
    on. *)
Theorem cursor_in_range_after_run (channel name file : string)
    (ti : textinput_Model) (vp : viewport_Model) (lines : list string)
    (msgs : list Msg) (fs : FileSystem) :
  cursorInRange (run (initialModel channel name file ti vp lines) msgs fs).1.
Proof. apply run_cursorInRange, initialModel_cursorInRange. Qed.

(** One event adds at most one entry, and only what the log accepts. *)
Lemma Update_history_step (m : model) (msg : Msg) (fs : FileSystem) :
  let r := Update m msg fs in
  (history r.1.1 = history m /\ r.2 = fs /\ ~ acceptedSubmit m msg)
  \/ (acceptedSubmit m msg
      /\ history r.1.1 = history m ++ [input_Value (input m)]).
Proof.
  intros r. subst r. destruct (isKey msg) eqn:Hk.
  - destruct msg as [[| | | | |code] runes| | | | | |]; try discriminate;
      try (left; split; [|split; [reflexivity|]];
           [| intros (r' & Hr & _); discriminate]).
    + reflexivity.
    + reflexivity.
    + destruct (Update_enter_log m runes fs)
        as [(Hh & _ & _ & Hf & Hn)|(Ha & Hh & _)]; [left | right]; auto.
    + apply navigateHistory_cursor.
    + apply navigateHistory_cursor.
    + apply (updateWidgets_sameLog m []).
  - left. destruct (Update_other_log m msg fs Hk) as ((Hh & _) & Hf).
    split; [exact Hh|]. split; [exact Hf|].
    intros (r' & -> & _). discriminate.
Qed.

Lemma noRepeats_snoc (h : list string) (text : string) :
  noRepeats h -> last h <> Some text -> noRepeats (h ++ [text]).
Proof.
  intros Hh Hl i a b Ha Hb.
  destruct (decide (S i < length h)%nat) as [Hlt|Hge].
  - rewrite lookup_app_l in Ha by lia. rewrite lookup_app_l in Hb by lia.
    eapply Hh; eauto.
  - assert (Hi : S i = length h).
    { apply lookup_lt_Some in Hb. rewrite length_app in Hb. simpl in Hb. lia. }
    rewrite lookup_app_l in Ha by lia.
    rewrite lookup_app_r in Hb by lia.
    replace (S i - length h)%nat with 0%nat in Hb by lia.
    injection Hb as <-. intros ->. apply Hl.
    rewrite last_lookup. rewrite <- Hi. exact Ha.
Qed.

(** X2. Over any sequence of events the history is only appended to: it
    keeps its entries in place, gains at most one entry per event, and
    gains no entry made of white space only. *)
Theorem history_append_only (m : model) (msgs : list Msg) (fs : FileSystem) :
  exists added,
    history (run m msgs fs).1 = history m ++ added
    /\ Forall (fun e => ~ whitespaceOnly e) added
    /\ (length added <= length msgs)%nat.
Proof.
  revert m fs. induction msgs as [|msg rest IH]; intros m fs.
  - exists []. simpl. rewrite app_nil_r. repeat split; auto.
  - simpl. pose proof (Update_history_step m msg fs) as Hs.
    destruct (Update m msg fs) as [[m1 c] fs1]. simpl in Hs.
    destruct (IH m1 fs1) as (added & Hh & Hb & Hl).
    destruct Hs as [(Hm & _)|((r' & _ & Hn & _) & Hm)]; rewrite Hh, Hm.
    + exists added. repeat split; auto.
    + exists (input_Value (input m) :: added). rewrite <- app_assoc.
      split; [reflexivity|]. split; [|simpl; lia].
      constructor; [|exact Hb]. rewrite <- TrimSpace_empty. exact Hn.
Qed.

(** X3. A history in which no entry equals the one before it stays so
    over any sequence of events. *)
Theorem no_repeats_kept (m : model) (msgs : list Msg) (fs : FileSystem) :
  noRepeats (history m) -> noRepeats (history (run m msgs fs).1).
Proof.
  revert m fs. induction msgs as [|msg rest IH]; intros m fs Hm; [exact Hm|].
  simpl. pose proof (Update_history_step m msg fs) as Hs.
  destruct (Update m msg fs) as [[m1 c] fs1]. simpl in Hs. apply IH.
  destruct Hs as [(-> & _)|((r' & _ & _ & Hd) & ->)]; [exact Hm|].
  apply noRepeats_snoc; assumption.
Qed.

(** X4. Only Enter on an input line the history log accepts grows the
    history or touches the file system, and it leaves the cursor behind
    the new entry with browsing off; an event that is not a key leaves the
    history, the cursor and the browsing flag as they are. *)
Theorem log_and_files_frame (m : model) (msg : Msg) (fs : FileSystem) :
  let r := Update m msg fs in
  (~ acceptedSubmit m msg -> history r.1.1 = history m /\ r.2 = fs)
  /\ (isKey msg = false -> sameLog m r.1.1)
  /\ (acceptedSubmit m msg ->
        history r.1.1 = history m ++ [input_Value (input m)]
        /\ historyIndex r.1.1 = len (history r.1.1)
        /\ browsingHist r.1.1 = false).
Proof.
  intros r. subst r. split; [|split].
  - intros Hn.
    destruct (Update_history_step m msg fs) as [(Hh & Hf & _)|(Ha & _)];
      [auto | contradiction].
  - intros Hk. apply Update_other_log, Hk.
  - intros (runes & -> & Hb & Hd).
    destruct (Update_enter_log m runes fs) as [(_ & _ & _ & _ & Hn)|(_ & H)];
      [|exact H].
    exfalso. apply Hn. exists runes. auto.
Qed.

End LogOverRuns.

(* --------------------------------------------------------------------- *)
(** ** The message store over a session *)
(* --------------------------------------------------------------------- *)

Section StoreOverRuns.

Context {F : Foreign} {ops : ForeignOps}.

Lemma sameStore_refl (m : model) : sameStore m m.
Proof. repeat split. Qed.

Lemma sameStore_trans (m1 m2 m3 : model) :
  sameStore m1 m2 -> sameStore m2 m3 -> sameStore m1 m3.
Proof.
  unfold sameStore. intros (? & ? & ?) (? & ? & ?). repeat split; congruence.
Qed.

Lemma appendToHistory_sameStore (m : model) (message : string)
    (fs : FileSystem) :
  sameStore m (appendToHistory m message fs).1.1.
Proof.
  unfold appendToHistory.
  destruct (negb _); [apply sameStore_refl|].
  destruct (lastIs _ _); [apply sameStore_refl|]. simpl.
  destruct (OpenFile_append _ _) as [[file|e] fs1]; [|repeat split].
  destruct (WriteString _ _ _). repeat split.
Qed.

Lemma navigateHistory_sameStore (m : model) (direction : Z) :
  sameStore m (navigateHistory m direction).
Proof.
  unfold navigateHistory.
  destruct (negb _); [|apply sameStore_refl]. simpl.
  destruct (_ =? _); [repeat split|].
  destruct (0 <? _); [|repeat split].
  destruct (index _ _); repeat split.
Qed.

(** The store after an event is the store [mergeMessages] left, for a
    successful fetch with a batch, and the store before it otherwise. *)
Lemma Update_store (m : model) (msg : Msg) (fs : FileSystem) :
  sameStore
    match msg with
    | fetchMessagesMsg (Some batch) None => mergeMessages m batch
    | _ => m
    end
    (Update m msg fs).1.1.
Proof.
  destruct msg as [[| | | | |code] runes|w h| |t|[batch|] [e|]|[e|]|n]; simpl;
    try apply sameStore_refl; try (repeat split; fail);
    try apply updateWidgets_store.
  - destruct (nonempty _); [|apply updateWidgets_store].
    pose proof (appendToHistory_sameStore m (input_Value (input m)) fs) as Ha.
    destruct (appendToHistory _ _ _) as [[m0 e] fs0]. simpl in Ha |- *.
    eapply sameStore_trans; [exact Ha|].
    eapply sameStore_trans; [|apply updateWidgets_store].
    destruct e; repeat split.
  - apply navigateHistory_sameStore.
  - apply navigateHistory_sameStore.
  - eapply sameStore_trans; [|apply updateWidgets_store].
    destruct (ready m); repeat split.
  - apply (updateWidgets_store (updateViewportContent m)).
Qed.

(** X5. The message store (messages, seen ids, sync cursor) changes on
    one kind of event only: a successful fetch whose batch holds a message
    that is not stored yet. *)
Theorem store_frame (m : model) (msg : Msg) (fs : FileSystem) :
  (forall batch, msg = fetchMessagesMsg (Some batch) None ->
     hasNew m batch = false) ->
  sameStore m (Update m msg fs).1.1.
Proof.
  intros Hn. pose proof (Update_store m msg fs) as Hs.
  destruct msg as [| | | |[batch|] [e|]| |]; try exact Hs.
  rewrite mergeMessages_fixed in Hs by (apply Hn; reflexivity). exact Hs.
Qed.

Lemma format_id (l : list Message) : map id (map format l) = map Ts l.
Proof.
  induction l as [|x l IH]; simpl; [reflexivity|]. f_equal; [|exact IH].
  unfold format. destruct (UsernameForMessage x). reflexivity.
Qed.

(** The accepted messages carry ids that are new and differ from one
    another. *)
Lemma accepted_fresh (batch : list Message) (ids : gmap string bool) :
  NoDup (map Ts (accepted ids batch))
  /\ forall k, k ∈ map Ts (accepted ids batch) -> seen ids k = false.
Proof.
  revert ids. induction batch as [|x rest IH]; intros ids; simpl.
  - split; [constructor|]. intros k Hk. apply elem_of_nil in Hk as [].
  - destruct (seen ids (Ts x)) eqn:Hx; [apply IH|].
    destruct (IH (<[Ts x := true]> ids)) as [Hnd Hfr]. simpl.
    assert (Hother : forall k,
               k ∈ map Ts (accepted (<[Ts x:=true]> ids) rest) ->
               k <> Ts x /\ seen ids k = false).
    { intros k Hk. apply Hfr in Hk. rewrite seen_insert in Hk.
      destruct (decide (Ts x = k)); [discriminate|]. auto. }
    split.
    + constructor; [|exact Hnd]. intros Hin. apply Hother in Hin as [Hne _].
      congruence.
    + intros k Hk. apply elem_of_cons in Hk as [->|Hk]; [exact Hx|].
      apply Hother, Hk.
Qed.

(** The ids marked after the loop: those marked before and those of the
    accepted messages. *)
Lemma seen_markSeen_iff (batch : list Message) (ids : gmap string bool)
    (k : string) :
  seen (markSeen ids batch) k = true
  <-> seen ids k = true \/ k ∈ map Ts (accepted ids batch).
Proof.
  revert ids. induction batch as [|x rest IH]; intros ids.
  - simpl. split; [auto|]. intros [?|Hk]; [auto|].
    apply elem_of_nil in Hk as [].
  - change (markSeen ids (x :: rest))
      with (markSeen (<[Ts x := true]> ids) rest).
    simpl. destruct (seen ids (Ts x)) eqn:Hx.
    + rewrite (seen_insert_same _ _ Hx). apply IH.
    + rewrite IH, seen_insert. simpl. rewrite elem_of_cons.
      destruct (decide (Ts x = k)) as [->|Hne]; [tauto|].
      split; [tauto|]. intros [?|[?|?]]; auto; congruence.
Qed.

Lemma mergeMessages_storeCoherent `{!SortSliceSpec} (m : model)
    (batch : list Message) :
  storeCoherent m -> storeCoherent (mergeMessages m batch).
Proof.
  intros (Hnd & Hco & Hcur). rewrite mergeMessages_spec.
  destruct (hasNew m batch) eqn:Hn; [|repeat split; auto; apply Hco].
  destruct (accepted_fresh batch (messageIDs m)) as [Hand Hafr].
  assert (Hids : storedIds
                   (updateViewportContent
                      (set_lastFetched
                         (set_messages
                            (set_messageIDs
                               (set_messages m
                                  (messages m ++
                                   map format (accepted (messageIDs m) batch)))
                               (markSeen (messageIDs m) batch))
                            (sort_Slice formattedMessage lessByTimestamp
                               (messages m ++
                                map format (accepted (messageIDs m) batch))))
                         (default ""%string (Ts <$> head batch))))
                 ≡ₚ storedIds m ++ map Ts (accepted (messageIDs m) batch)).
  { unfold storedIds. simpl. rewrite sort_Slice_perm, map_app, format_id.
    reflexivity. }
  unfold storeCoherent. simpl messageIDs. simpl lastFetched.
  split; [|split].
  - rewrite Hids. apply NoDup_app. split; [exact Hnd|]. split; [|exact Hand].
    intros k Hk Hk'. apply Hco in Hk. apply Hafr in Hk'. congruence.
  - intros k. rewrite Hids, seen_markSeen_iff, elem_of_app, Hco. reflexivity.
  - right. rewrite Hids.
    destruct batch as [|first rest]; [discriminate|].
    change (default ""%string (Ts <$> head (first :: rest))) with (Ts first).
    apply elem_of_app. rewrite <- Hco.
    apply seen_markSeen_iff. apply (seen_markSeen _ (first :: rest)).
    left. reflexivity.
Qed.

Lemma sameStore_storeCoherent (m m' : model) :
  sameStore m m' -> storeCoherent m -> storeCoherent m'.
Proof.
  unfold sameStore, storeCoherent, storedIds.
  intros (-> & -> & ->) Hm. exact Hm.
Qed.

Lemma run_storeCoherent `{!SortSliceSpec} (msgs : list Msg) (m : model)
    (fs : FileSystem) :
  storeCoherent m -> storeCoherent (run m msgs fs).1.
Proof.
  revert m fs. induction msgs as [|msg rest IH]; intros m fs Hm; [exact Hm|].
  simpl. pose proof (Update_store m msg fs) as Hs.
  destruct (Update m msg fs) as [[m1 c] fs1]. apply IH.
  eapply sameStore_storeCoherent; [exact Hs|].
  destruct msg as [| | | |[batch|] [e|]| |]; try exact Hm.
  apply mergeMessages_storeCoherent, Hm.
Qed.

Lemma initialModel_storeCoherent (channel name file : string)
    (ti : textinput_Model) (vp : viewport_Model) (lines : list string) :
  storeCoherent (initialModel channel name file ti vp lines).
Proof.
  split; [constructor|]. split; [|left; reflexivity].
  intros k. unfold seen, storedIds. simpl. rewrite lookup_empty. simpl.
  split; [discriminate|]. intros Hk. apply elem_of_nil in Hk as [].
Qed.

(** X6. In every state a session reaches from its start no id is stored
    twice, and [messageIDs] marks exactly the ids of the stored
    messages. *)
Theorem stored_ids_unique_after_run `{!SortSliceSpec}
    (channel name file : string) (ti : textinput_Model)
    (vp : viewport_Model) (lines : list string) (msgs : list Msg)
    (fs : FileSystem) :
  let m := (run (initialModel channel name file ti vp lines) msgs fs).1 in
  NoDup (storedIds m)
  /\ forall k, seen (messageIDs m) k = true <-> k ∈ storedIds m.
Proof.
  destruct (run_storeCoherent msgs _ fs
              (initialModel_storeCoherent channel name file ti vp lines))
    as (Hnd & Hco & _).
  split; assumption.
Qed.

(** X7. In every state a session reaches from its start the sync cursor
    is empty or the id of a stored message. *)
Theorem cursor_is_stored_id_after_run `{!SortSliceSpec}
    (channel name file : string) (ti : textinput_Model)
    (vp : viewport_Model) (lines : list string) (msgs : list Msg)
    (fs : FileSystem) :
  let m := (run (initialModel channel name file ti vp lines) msgs fs).1 in
  lastFetched m = ""%string
  \/ exists fm, fm ∈ messages m /\ id fm = lastFetched m.
Proof.
  destruct (run_storeCoherent msgs _ fs
              (initialModel_storeCoherent channel name file ti vp lines))
    as (_ & _ & [He|Hin]); [left; exact He | right].
  apply list_elem_of_fmap in Hin as (fm & Hid & Hfm). exists fm. auto.
Qed.

(** X8. A stored message stays stored over any sequence of events. *)
Theorem stored_messages_kept `{!SortSliceSpec} (m : model)
    (msgs : list Msg) (fs : FileSystem) (fm : formattedMessage) :
  fm ∈ messages m -> fm ∈ messages (run m msgs fs).1.
Proof.
  revert m fs. induction msgs as [|msg rest IH]; intros m fs Hm; [exact Hm|].
  simpl. pose proof (Update_store m msg fs) as (Hs & _).
  destruct (Update m msg fs) as [[m1 c] fs1]. apply IH.
  simpl in Hs. rewrite Hs.
  destruct msg as [| | | |[batch|] [e|]| |]; try exact Hm.
  destruct (hasNew m batch) eqn:Hn.
  - rewrite mergeMessages_messages by exact Hn.
    rewrite sort_Slice_perm. apply elem_of_app. left. exact Hm.
  - rewrite mergeMessages_fixed by exact Hn. exact Hm.
Qed.

End StoreOverRuns.

(* --------------------------------------------------------------------- *)
(** ** Errors, readiness and the view *)
(* --------------------------------------------------------------------- *)

Section ViewOverRuns.

Context {F : Foreign} {ops : ForeignOps} {vops : ViewOps}.

Lemma updateWidgets_ready (m : model) (cmds : list Cmd) (msg : Msg) :
  ready (updateWidgets m cmds msg).1 = ready m.
Proof.
  unfold updateWidgets.
  destruct (input_Update _ _), (viewport_Update _ _). reflexivity.
Qed.

Lemma appendToHistory_ready_err (m : model) (message : string)
    (fs : FileSystem) :
  ready (appendToHistory m message fs).1.1 = ready m
  /\ err (appendToHistory m message fs).1.1 = err m.
Proof.
  unfold appendToHistory.
  destruct (negb _); [auto|]. destruct (lastIs _ _); [auto|]. simpl.
  destruct (OpenFile_append _ _) as [[file|e] fs1]; [|auto].
  destruct (WriteString _ _ _). auto.
Qed.

Lemma navigateHistory_ready_err (m : model) (direction : Z) :
  ready (navigateHistory m direction) = ready m
  /\ err (navigateHistory m direction) = err m.
Proof.
  unfold navigateHistory.
  destruct (negb _); [|auto]. simpl.
  destruct (_ =? _); [auto|]. destruct (0 <? _); [|auto].
  destruct (index _ _); auto.
Qed.

(** Only the window's size makes the session ready, and nothing unmakes
    it. *)
Lemma Update_ready (m : model) (msg : Msg) (fs : FileSystem) :
  ready (Update m msg fs).1.1 = ready m || isWindowSize msg.
Proof.
  destruct msg as [[| | | | |code] runes|w h| |t|[batch|] [e|]|[e|]|n]; simpl;
    rewrite ?orb_false_r, ?orb_true_r; try reflexivity;
    rewrite ?updateWidgets_ready; try reflexivity.
  - destruct (nonempty _); [|apply updateWidgets_ready].
    pose proof (appendToHistory_ready_err m (input_Value (input m)) fs)
      as [Hr _].
    destruct (appendToHistory _ _ _) as [[m0 e] fs0]. simpl in Hr |- *.
    rewrite updateWidgets_ready. destruct e; exact Hr.
  - apply navigateHistory_ready_err.
  - apply navigateHistory_ready_err.
  - destruct (ready m) eqn:E; simpl; rewrite ?E; reflexivity.
  - apply mergeMessages_sameLog.
Qed.

(** An error, once recorded, is only ever replaced by another. *)
Lemma Update_err (m : model) (msg : Msg) (fs : FileSystem) :
  err (Update m msg fs).1.1 = err m
  \/ exists e, err (Update m msg fs).1.1 = Some e.
Proof.
  destruct msg as [[| | | | |code] runes|w h| |t|[batch|] [e|]|[e|]|n]; simpl;
    try (left; reflexivity); try (right; eexists; reflexivity);
    try (left; etransitivity; [apply updateWidgets_fields|]; reflexivity).
  - destruct (nonempty _);
      [|left; etransitivity; [apply updateWidgets_fields|]; reflexivity].
    pose proof (appendToHistory_ready_err m (input_Value (input m)) fs)
      as [_ He].
    destruct (appendToHistory _ _ _) as [[m0 e] fs0]. simpl in He |- *.
    destruct e as [e|].
    + right. exists e. etransitivity; [apply updateWidgets_fields|].
      reflexivity.
    + left. etransitivity; [apply updateWidgets_fields|]. exact He.
  - left. apply navigateHistory_ready_err.
  - left. apply navigateHistory_ready_err.
  - left. etransitivity; [apply updateWidgets_fields|].
    destruct (ready m); reflexivity.
  - left. etransitivity; [apply updateWidgets_fields|].
    apply mergeMessages_sameLog.
Qed.

Lemma run_ready (msgs : list Msg) (m : model) (fs : FileSystem) :
  ready (run m msgs fs).1 = ready m || existsb isWindowSize msgs.
Proof.
  revert m fs. induction msgs as [|msg rest IH]; intros m fs; simpl.
  - rewrite orb_false_r. reflexivity.
  - pose proof (Update_ready m msg fs) as Hu.
    destruct (Update m msg fs) as [[m1 c] fs1]. simpl in Hu.
    rewrite IH, Hu, orb_assoc. reflexivity.
Qed.

Lemma run_err (msgs : list Msg) (m : model) (fs : FileSystem) (e : error) :
  err m = Some e -> exists e', err (run m msgs fs).1 = Some e'.
Proof.
  revert m fs e. induction msgs as [|msg rest IH]; intros m fs e He; simpl.
  - exists e. exact He.
  - pose proof (Update_err m msg fs) as Hu.
    destruct (Update m msg fs) as [[m1 c] fs1]. simpl in Hu.
    destruct Hu as [Hu|[e' Hu]]; [rewrite He in Hu|]; eapply IH; eauto.
Qed.

(** X9. No event clears the error field: once an error is recorded in a
    ready session, every later view is an error screen, that of the error
    recorded last, and the message log and the input are not rendered
    again. *)
Theorem error_screen_is_permanent (m : model) (e : error)
    (msgs : list Msg) (fs : FileSystem) :
  ready m = true -> err m = Some e ->
  exists e', err (run m msgs fs).1 = Some e'
             /\ View (run m msgs fs).1 = errorScreen e'.
Proof.
  intros Hr He. destruct (run_err msgs m fs e He) as [e' He'].
  exists e'. split; [exact He'|].
  unfold View. rewrite run_ready, Hr, He'. reflexivity.
Qed.

(** X10. A session is ready exactly from its first window-size event
    on; until then its view is the placeholder, whatever else
    happened. *)
Theorem placeholder_until_window_size (channel name file : string)
    (ti : textinput_Model) (vp : viewport_Model) (lines : list string)
    (msgs : list Msg) (fs : FileSystem) :
  let m := (run (initialModel channel name file ti vp lines) msgs fs).1 in
  ready m = existsb isWindowSize msgs
  /\ (existsb isWindowSize msgs = false -> View m = "Initializing..."%string).
Proof.
  intros m. subst m. rewrite run_ready. simpl. split; [reflexivity|].
  intros Hn. unfold View. rewrite run_ready, Hn. reflexivity.
Qed.

(** X11. In every state a session reaches from its start, when the
    normal view is rendered while browsing, it ends with the history
    indicator, and the position it shows is between 1 and the number of
    entries. *)
Theorem history_indicator_in_range (channel name file : string)
    (ti : textinput_Model) (vp : viewport_Model) (lines : list string)
    (msgs : list Msg) (fs : FileSystem) :
  let m := (run (initialModel channel name file ti vp lines) msgs fs).1 in
  len (history m) <= max_int ->
  ready m = true -> err m = None -> browsingHist m = true ->
  1 <= historyIndex m + 1 <= len (history m)
  /\ View m =
       RenderBox channelStyle ("#" +:+ channelName m) +:+ newline +:+ newline
       +:+ viewport_View (viewport m) +:+ newline +:+ newline
       +:+ RenderBox inputStyle (input_View (input m))
       +:+ " [History: " +:+ formatInt (historyIndex m + 1) +:+ "/"
       +:+ formatInt (len (history m)) +:+ "]".
Proof.
  intros m Hlen Hr He Hb.
  destruct (run_cursorInRange msgs _ fs
              (initialModel_cursorInRange channel name file ti vp lines))
    as [Hrange Hbr].
  fold m in Hrange, Hbr. specialize (Hbr Hb). split; [lia|].
  unfold View, historyIndicator. rewrite Hr, He, Hb. simpl negb. cbv iota.
  unfold int_add, max_int in *. rewrite wrap_int_small by lia. reflexivity.
Qed.

End ViewOverRuns.

(* --------------------------------------------------------------------- *)
(** ** Quitting *)
(* --------------------------------------------------------------------- *)

Section Quitting.

Context {F : Foreign} {ops : ForeignOps}.

(** X12. [Update] asks to quit on Esc and on Ctrl-C and on nothing else,
    and then leaves the model and the file system as they are. *)
Theorem quits_on_esc_and_ctrl_c_only (m : model) (msg : Msg)
    (fs : FileSystem) :
  ((Update m msg fs).1.2 = cmd_Quit <-> isQuitKey msg = true)
  /\ (isQuitKey msg = true -> Update m msg fs = (m, cmd_Quit, fs)).
Proof.
  split.
  - destruct msg as [[| | | | |code] runes|w h| |t|[batch|] [e|]|[e|]|n];
      simpl; try (split; [reflexivity | reflexivity]);
      try (split; discriminate);
      try (unfold updateWidgets;
           repeat match goal with
                  | |- context [let '(_, _) := ?x in _] => destruct x
                  end; simpl; split; discriminate).
    destruct (nonempty _).
    + destruct (appendToHistory _ _ _) as [[m0 e] fs0].
      unfold updateWidgets.
      repeat match goal with
             | |- context [let '(_, _) := ?x in _] => destruct x
             end; simpl; split; discriminate.
    + unfold updateWidgets.
      repeat match goal with
             | |- context [let '(_, _) := ?x in _] => destruct x
             end; simpl; split; discriminate.
  - destruct msg as [[| | | | |code] runes| | | | | |]; try discriminate;
      reflexivity.
Qed.

End Quitting.

(* --------------------------------------------------------------------- *)
(** ** The history file *)
(* --------------------------------------------------------------------- *)

Lemma append_cons (c : ascii) (a b : string) :
  String c a +:+ b = String c (a +:+ b).
Proof. reflexivity. Qed.

Lemma append_assoc (a b c : string) : (a +:+ b) +:+ c = a +:+ (b +:+ c).
Proof.
  induction a as [|x a IH]; [reflexivity|].
  rewrite !append_cons, IH. reflexivity.
Qed.

Lemma list_ascii_app (a b : string) :
  list_ascii_of_string (a +:+ b)
  = list_ascii_of_string a ++ list_ascii_of_string b.
Proof.
  induction a as [|c a IH]; [reflexivity|].
  rewrite append_cons. simpl. rewrite IH. reflexivity.
Qed.

Lemma dropCR_clean (l : list ascii) : last l <> Some CR -> dropCR l = l.
Proof.
  unfold dropCR. destruct (last l) as [c|]; [|reflexivity].
  destruct (Ascii.eqb_spec c CR) as [->|]; [congruence | reflexivity].
Qed.

(** A line that fits the buffer is read up to its line feed. *)
Lemma scanTokens_line (e cur rest : list ascii) :
  LF ∉ e -> len (cur ++ e) < MaxScanTokenSize ->
  scanTokens cur (e ++ LF :: rest) = dropCR (cur ++ e) :: scanTokens [] rest.
Proof.
  revert cur. induction e as [|c e IH]; intros cur Hlf Hlen.
  - simpl. rewrite app_nil_r. reflexivity.
  - apply not_elem_of_cons in Hlf as [Hc Hlf]. simpl.
    destruct (Ascii.eqb_spec c LF) as [->|_]; [congruence|].
    rewrite len_app in Hlen.
    assert (0 <= len e) by apply len_nonneg.
    change (len (c :: e)) with (Z.of_nat (S (length e))) in Hlen.
    unfold len in *.
    destruct (Z.leb_spec MaxScanTokenSize (Z.of_nat (length cur) + 1)); [lia|].
    rewrite IH; [|exact Hlf|].
    + rewrite <- app_assoc. reflexivity.
    + unfold len. rewrite !length_app. simpl. lia.
Qed.

(** What [appendToHistory] writes for clean entries, the loader reads
    back. *)
Lemma scanLines_encodeLines (entries : list string) :
  Forall cleanLine entries -> scanLines (encodeLines entries) = entries.
Proof.
  unfold scanLines. induction 1 as [|e es (Hlf & Hcr & Hlen) _ IH].
  - reflexivity.
  - simpl encodeLines. rewrite !list_ascii_app.
    change (list_ascii_of_string newline) with [LF]. simpl app.
    rewrite scanTokens_line by assumption. simpl app.
    rewrite dropCR_clean by assumption. simpl map.
    rewrite string_of_list_ascii_of_string, IH. reflexivity.
Qed.

Lemma encodeLines_snoc (entries : list string) (e : string) :
  encodeLines (entries ++ [e]) = encodeLines entries +:+ (e +:+ newline).
Proof.
  induction entries as [|x xs IH]; simpl.
  - reflexivity.
  - rewrite IH, !append_assoc. reflexivity.
Qed.

Section HistoryFile.

Context {F : Foreign} {ops : ForeignOps} {sops : StartOps}.
Context {fsSpec : FileSystemSpec}.

Lemma loadHistory_content (file : string) (fs : FileSystem) :
  loadHistory file fs
  = match fileContent file fs with
    | Some content => scanLines content
    | None => []
    end.
Proof.
  unfold loadHistory, fileContent.
  destruct (Stat file fs); [reflexivity|].
  destruct (Open file fs); reflexivity.
Qed.

Lemma mirrors_load (m : model) (fs : FileSystem) :
  mirrors m fs -> loadHistory (historyFile m) fs = history m.
Proof.
  intros (Hclean & [Hc|[Hh Hc]]); rewrite loadHistory_content, Hc.
  - apply scanLines_encodeLines, Hclean.
  - symmetry. exact Hh.
Qed.

Lemma appendToHistory_mirrors (m : model) (message : string)
    (fs : FileSystem) :
  mirrors m fs -> cleanLine message ->
  (appendToHistory m message fs).1.2 = None ->
  mirrors (appendToHistory m message fs).1.1 (appendToHistory m message fs).2.
Proof.
  intros (Hclean & Hfile) Hmsg. unfold appendToHistory.
  destruct (negb _); [intros _; split; assumption|].
  destruct (lastIs _ _); [intros _; split; assumption|]. simpl.
  destruct (OpenFile_append (historyFile m) fs) as [[file|e] fs1] eqn:Ho;
    [|discriminate].
  destruct (WriteString file (message +:+ newline) fs1) as [e fs2] eqn:Hw.
  simpl. intros ->.
  pose proof (append_content _ _ _ _ _ _ Ho Hw) as Hc.
  split; simpl.
  - apply Forall_app. split; [exact Hclean|].
    constructor; [exact Hmsg | constructor].
  - left. rewrite Hc, encodeLines_snoc.
    destruct Hfile as [-> | [-> ->]]; reflexivity.
Qed.

(** No event renames the history file or changes the channel. *)
Lemma Update_historyFile (m : model) (msg : Msg) (fs : FileSystem) :
  historyFile (Update m msg fs).1.1 = historyFile m
  /\ channelID (Update m msg fs).1.1 = channelID m.
Proof.
  assert (Hw : forall m cmds msg,
             historyFile (updateWidgets m cmds msg).1 = historyFile m
             /\ channelID (updateWidgets m cmds msg).1 = channelID m).
  { intros m0 cmds msg0. unfold updateWidgets.
    destruct (input_Update _ _), (viewport_Update _ _). auto. }
  assert (Hn : forall m d,
             historyFile (navigateHistory m d) = historyFile m
             /\ channelID (navigateHistory m d) = channelID m).
  { intros m0 d. unfold navigateHistory.
    destruct (negb _); [|auto]. simpl.
    destruct (_ =? _); [auto|]. destruct (0 <? _); [|auto].
    destruct (index _ _); auto. }
  assert (Ha : forall m s fs,
             historyFile (appendToHistory m s fs).1.1 = historyFile m
             /\ channelID (appendToHistory m s fs).1.1 = channelID m).
  { intros m0 s fs0. unfold appendToHistory.
    destruct (negb _); [auto|]. destruct (lastIs _ _); [auto|]. simpl.
    destruct (OpenFile_append _ _) as [[file|e] fs1]; [|auto].
    destruct (WriteString _ _ _). auto. }
  destruct msg as [[| | | | |code] runes|w h| |t|[batch|] [e|]|[e|]|n]; simpl;
    auto;
    try (specialize (Ha m (input_Value (input m)) fs);
         destruct (nonempty _); [|apply Hw];
         destruct (appendToHistory _ _ _) as [[m0 e] fs0]; simpl in Ha |- *);
    match goal with
    | |- context [updateWidgets ?a ?b ?c] =>
        destruct (Hw a b c) as [-> ->]
    end.
  - destruct e; exact Ha.
  - destruct (ready m); auto.
  - auto.
  - rewrite mergeMessages_spec. destruct (hasNew m batch); auto.
Qed.

(** X13. When the history file holds the lines [appendToHistory] wrote
    for the entries in memory, it still does after any event, provided
    that a line the log accepts is a clean line and its write succeeds;
    the loader of [initialModel] then reads the in-memory history back
    from the file. *)
Theorem history_file_mirrors_memory (m : model) (msg : Msg)
    (fs : FileSystem) :
  mirrors m fs ->
  (acceptedSubmit m msg ->
     cleanLine (input_Value (input m))
     /\ (appendToHistory m (input_Value (input m)) fs).1.2 = None) ->
  let r := Update m msg fs in
  mirrors r.1.1 r.2 /\ loadHistory (historyFile r.1.1) r.2 = history r.1.1.
Proof.
  intros Hm Hacc r.
  assert (Hmir : mirrors r.1.1 r.2);
    [|split; [exact Hmir | apply mirrors_load, Hmir]].
  subst r. destruct (Update_historyFile m msg fs) as [Hf _].
  destruct (Update_history_step m msg fs) as [(Hh & Hfs & _)|(Ha & Hh)].
  - unfold mirrors. rewrite Hh, Hfs, Hf. exact Hm.
  - destruct (Hacc Ha) as [Hclean Hok]. destruct Ha as (runes & -> & Hb & Hd).
    pose proof (appendToHistory_mirrors m _ fs Hm Hclean Hok) as Hmir.
    destruct (appendToHistory_accepted m _ fs Hb Hd) as (Hh' & _).
    destruct (Update_historyFile m (KeyMsg KeyEnter "") fs) as [_ _].
    unfold mirrors in *. rewrite Hh, Hf. rewrite Hh' in Hmir.
    rewrite Update_enter by exact Hb. cbv zeta. simpl snd.
    replace (historyFile (appendToHistory m (input_Value (input m)) fs).1.1)
      with (historyFile m) in Hmir; [exact Hmir|].
    unfold appendToHistory.
    destruct (negb _); [auto|]. destruct (lastIs _ _); [auto|]. simpl.
    destruct (OpenFile_append _ _) as [[file|e] fs1]; [|auto].
    destruct (WriteString _ _ _). auto.
Qed.

End HistoryFile.

(* --------------------------------------------------------------------- *)
(** ** Starting a session *)
(* --------------------------------------------------------------------- *)

Section Start.

Context {F : Foreign} {ops : ForeignOps} {sops : StartOps}.

(** X14. Starting a session fails exactly when the home directory is
    unknown or the history directory cannot be made, with that error.  A
    failing channel lookup is not an error, the channel id stands in for
    the name; neither is a history file that cannot be examined or opened,
    the history is then empty.  The model it returns has the cursor behind
    the loaded history, an empty store, no error, and is not ready. *)
Theorem start_fails_only_without_directory (channel : string)
    (fs : FileSystem) :
  let r := startSession channel fs in
  (forall e, r.1 = inr e <->
     UserHomeDir = inr e
     \/ exists home, UserHomeDir = inl home
          /\ (MkdirAll (historyDirOf home) fs).1 = Some e)
  /\ (forall m, r.1 = inl m ->
        channelID m = channel
        /\ (ChannelInfo channel = inl (channelName m)
            \/ (exists e, ChannelInfo channel = inr e)
               /\ channelName m = channel)
        /\ history m = loadHistory (historyFile m) r.2
        /\ (fileContent (historyFile m) r.2 = None -> history m = [])
        /\ cursorInRange m /\ historyIndex m = len (history m)
        /\ messages m = [] /\ lastFetched m = ""%string
        /\ storeCoherent m /\ ready m = false /\ err m = None).
Proof.
  intros r. subst r. unfold startSession.
  destruct UserHomeDir as [home|e0] eqn:Hhome.
  - destruct (MkdirAll (historyDirOf home) fs) as [[e1|] fs1] eqn:Hmk; simpl.
    + split.
      * intros e. split.
        -- intros [= <-]. right. exists home. rewrite Hmk. split; reflexivity.
        -- intros [Hd|(home' & [= <-] & Hd)]; [discriminate|].
           rewrite Hmk in Hd. injection Hd as <-. reflexivity.
      * intros m Hm. discriminate.
    + split.
      * intros e. split; [discriminate|].
        intros [Hd|(home' & [= <-] & Hd)]; [discriminate|].
        rewrite Hmk in Hd. discriminate.
      * intros m [= <-]. simpl.
        split; [reflexivity|]. split.
        { destruct (ChannelInfo channel) as [name|e]; [left | right]; eauto. }
        split; [reflexivity|]. split.
        { unfold loadHistory, fileContent.
          destruct (Stat _ fs1); [reflexivity|].
          destruct (Open _ fs1); [discriminate | reflexivity]. }
        split; [apply initialModel_cursorInRange|].
        split; [reflexivity|].
        split; [reflexivity|]. split; [reflexivity|].
        split; [apply initialModel_storeCoherent|]. auto.
  - simpl. split.
    + intros e. split.
      * intros [= <-]. left. reflexivity.
      * intros [[= <-]|(home & Hd & _)]; [reflexivity | discriminate].
    + intros m Hm. discriminate.
Qed.

(** X15. A session started on a file system whose history file mirrors
    the memory of an earlier session has that session's history, with the
    cursor behind it; the messages are not kept. *)
Theorem restart_loads_history `{!FileSystemSpec} (m : model)
    (channel home : string) (fs : FileSystem) :
  mirrors m fs -> UserHomeDir = inl home ->
  historyFile m = historyFileOf home channel ->
  (MkdirAll (historyDirOf home) fs).1 = None ->
  exists m0, (startSession channel fs).1 = inl m0
             /\ history m0 = history m
             /\ historyIndex m0 = len (history m)
             /\ browsingHist m0 = false
             /\ messages m0 = [] /\ lastFetched m0 = ""%string.
Proof.
  intros Hm Hhome Hfile Hmk. unfold startSession. rewrite Hhome.
  pose proof (mkdir_content (historyDirOf home) fs (historyFile m)) as Hc.
  destruct (MkdirAll (historyDirOf home) fs) as [o fs1]. simpl in Hmk, Hc.
  subst o. eexists. split; [reflexivity|]. simpl.
  assert (Hload : loadHistory (historyFileOf home channel) fs1 = history m).
  { rewrite <- Hfile, loadHistory_content, Hc, <- loadHistory_content.
    apply mirrors_load, Hm. }
  rewrite Hload. auto.
Qed.

End Start.

(* --------------------------------------------------------------------- *)
(** ** What the commands deliver *)
(* --------------------------------------------------------------------- *)

Section Delivery.

Context {F : Foreign} {ops : ForeignOps} {cops : ClientOps}.

(** X16. A fetch of the most recent page that comes back without error
    and with a nil page is answered by the very same fetch, the state
    unchanged: as long as the client returns such pages the fetch repeats
    without waiting for the timer. *)
Theorem nil_page_refetches (m : model) (fs : FileSystem) (now : Time) :
  History (channelID m) "" "" 20 = inl None ->
  let c := cmd_fetchMessages (channelID m) "" in
  exists msg, deliver now c = Some msg /\ Update m msg fs = (m, c, fs).
Proof.
  intros Hh c. exists (fetchMessages (channelID m) ""). split; [reflexivity|].
  unfold fetchMessages. rewrite Hh. reflexivity.
Qed.

(** X17. Enter on an input line that is not blank, whether the history
    log accepts it or not, launches the sequence of the send and the
    delayed refresh on the session's channel.  The refresh marker is
    answered, in any state, by a fetch of the most recent page, not of
    the sync cursor; so is a send that succeeded, and a send that failed
    records its error and launches nothing. *)
Theorem submit_sends_then_refreshes (m : model) (runes : string)
    (fs : FileSystem) (now : Time) :
  TrimSpace (input_Value (input m)) <> ""%string ->
  let text := input_Value (input m) in
  let r := Update m (KeyMsg KeyEnter runes) fs in
  exists send refresh others,
    r.1.2 = cmd_Batch (cmd_Sequence [send; refresh] :: others)
    /\ channelID r.1.1 = channelID m
    /\ deliver now send = Some (sendMessage (channelID m) text)
    /\ deliver now refresh = Some (fetchMessagesMsg None None)
    /\ forall m1 fs1,
         Update m1 (fetchMessagesMsg None None) fs1
         = (m1, cmd_fetchMessages (channelID m1) "", fs1)
         /\ Update m1 (sendMessage (channelID m) text) fs1
            = match SendMessage (channelID m) text with
              | Some e => (set_err m1 (Some e), cmd_nil, fs1)
              | None => (m1, cmd_fetchMessages (channelID m1) "", fs1)
              end.
Proof.
  intros Hb text r.
  destruct (Update_historyFile m (KeyMsg KeyEnter runes) fs) as [_ Hc].
  subst r. rewrite Hc. rewrite Update_enter by exact Hb. cbv zeta.
  fold text.
  assert (Hch : channelID (appendToHistory m text fs).1.1 = channelID m).
  { unfold appendToHistory.
    destruct (negb _); [auto|]. destruct (lastIs _ _); [auto|]. simpl.
    destruct (OpenFile_append _ _) as [[file|e] fs1]; [|auto].
    destruct (WriteString _ _ _). auto. }
  exists (cmd_sendMessage (channelID m) text), cmd_refreshTick.
  unfold updateWidgets.
  destruct (input_Update _ _) as [ti tiCmd].
  destruct (viewport_Update _ _) as [vp vpCmd].
  exists [tiCmd; vpCmd]. simpl. unfold sendThenRefresh.
  split.
  { destruct ((appendToHistory m text fs).1.2); simpl; rewrite Hch;
      reflexivity. }
  split; [reflexivity|]. split; [reflexivity|]. split; [reflexivity|].
  intros m1 fs1. split; [reflexivity|].
  unfold sendMessage. destruct (SendMessage _ _); reflexivity.
Qed.

End Delivery.

(* --------------------------------------------------------------------- *)
(** ** The timer *)
(* --------------------------------------------------------------------- *)

Lemma wrap_int_add (a b : Z) : wrap_int (wrap_int a + b) = wrap_int (a + b).
Proof.
  unfold wrap_int. f_equal.
  replace (((a + 2 ^ 63) mod 2 ^ 64 - 2 ^ 63 + b + 2 ^ 63))
    with ((a + 2 ^ 63) mod 2 ^ 64 + b) by lia.
  rewrite Zplus_mod_idemp_l. f_equal. lia.
Qed.

Section Timer.

Context {F : Foreign} {ops : ForeignOps} {cops : ClientOps}.

Lemma Update_refreshCount (m : model) (msg : Msg) (fs : FileSystem) :
  refreshCount (Update m msg fs).1.1
  = if isTick msg then int_add (refreshCount m) 1 else refreshCount m.
Proof.
  assert (Hw : forall m cmds msg,
             refreshCount (updateWidgets m cmds msg).1 = refreshCount m).
  { intros m0 cmds msg0. unfold updateWidgets.
    destruct (input_Update _ _), (viewport_Update _ _). auto. }
  assert (Hn : forall m d, refreshCount (navigateHistory m d) = refreshCount m).
  { intros m0 d. unfold navigateHistory.
    destruct (negb _); [|auto]. simpl.
    destruct (_ =? _); [auto|]. destruct (0 <? _); [|auto].
    destruct (index _ _); auto. }
  assert (Ha : forall m s fs,
             refreshCount (appendToHistory m s fs).1.1 = refreshCount m).
  { intros m0 s fs0. unfold appendToHistory.
    destruct (negb _); [auto|]. destruct (lastIs _ _); [auto|]. simpl.
    destruct (OpenFile_append _ _) as [[file|e] fs1]; [|auto].
    destruct (WriteString _ _ _). auto. }
  destruct msg as [[| | | | |code] runes|w h| |t|[batch|] [e|]|[e|]|n]; simpl;
    auto;
    try (specialize (Ha m (input_Value (input m)) fs);
         destruct (nonempty _); [|apply Hw];
         destruct (appendToHistory _ _ _) as [[m0 e] fs0]; simpl in Ha |- *);
    rewrite Hw.
  - destruct e; exact Ha.
  - destruct (ready m); auto.
  - auto.
  - rewrite mergeMessages_spec. destruct (hasNew m batch); auto.
Qed.

Lemma run_refreshCount (msgs : list Msg) (m : model) (fs : FileSystem) :
  - 2 ^ 63 <= refreshCount m < 2 ^ 63 ->
  refreshCount (run m msgs fs).1 = wrap_int (refreshCount m + ticks msgs).
Proof.
  unfold ticks. revert m fs.
  induction msgs as [|msg rest IH]; intros m fs Hr; simpl.
  - rewrite Z.add_0_r. symmetry. apply wrap_int_small, Hr.
  - pose proof (Update_refreshCount m msg fs) as Hu.
    destruct (Update m msg fs) as [[m1 c] fs1]. simpl in Hu.
    destruct (isTick msg); simpl length.
    + rewrite IH by (rewrite Hu; apply wrap_int_range).
      rewrite Hu. unfold int_add. rewrite wrap_int_add. f_equal. lia.
    + rewrite IH by (rewrite Hu; exact Hr). rewrite Hu. reflexivity.
Qed.

(** X18. Polling does not stop: a tick is answered, whatever the state
    and even with an error recorded, by re-arming the timer and fetching
    from the current sync cursor, and the re-armed timer delivers the next
    tick.  The tick counter of a session counts its ticks, modulo
    [2 ^ 64]. *)
Theorem ticks_rearm_and_are_counted (channel name file : string)
    (ti : textinput_Model) (vp : viewport_Model) (lines : list string)
    (msgs : list Msg) (fs : FileSystem) (now : Time) :
  refreshCount (run (initialModel channel name file ti vp lines) msgs fs).1
  = wrap_int (ticks msgs)
  /\ forall m t fs,
       (Update m (tickMsg t) fs).1.2
       = cmd_Batch [cmd_tick; cmd_fetchMessages (channelID m) (lastFetched m)]
       /\ deliver now cmd_tick = Some (tickMsg now)
       /\ sameStore m (Update m (tickMsg t) fs).1.1
       /\ err (Update m (tickMsg t) fs).1.1 = err m.
Proof.
  split.
  - rewrite run_refreshCount by (simpl; lia). reflexivity.
  - intros m t fs0. repeat split.
Qed.

End Timer.

(* --------------------------------------------------------------------- *)
(** ** What a session keeps, redraws and records *)
(* --------------------------------------------------------------------- *)

Section Session.

Context {F : Foreign} {ops : ForeignOps}.

Lemma sameSession_refl (m : model) : sameSession m m.
Proof. repeat split. Qed.

Lemma sameSession_trans (a b c : model) :
  sameSession a b -> sameSession b c -> sameSession a c.
Proof.
  intros (H1 & H2 & H3 & H4) (G1 & G2 & G3 & G4).
  split; [congruence|]. split; [congruence|]. split; congruence.
Qed.

Lemma updateWidgets_sameSession (m : model) (cmds : list Cmd) (msg : Msg) :
  sameSession m (updateWidgets m cmds msg).1.
Proof.
  unfold updateWidgets.
  destruct (input_Update _ _), (viewport_Update _ _). repeat split.
Qed.

Lemma navigateHistory_sameSession (m : model) (d : Z) :
  sameSession m (navigateHistory m d).
Proof.
  unfold navigateHistory.
  destruct (negb _); [|apply sameSession_refl]. simpl.
  destruct (_ =? _); [repeat split|]. destruct (0 <? _); [|repeat split].
  destruct (index _ _); repeat split.
Qed.

Lemma appendToHistory_sameSession (m : model) (s : string) (fs : FileSystem) :
  sameSession m (appendToHistory m s fs).1.1.
Proof.
  unfold appendToHistory.
  destruct (negb _); [apply sameSession_refl|].
  destruct (lastIs _ _); [apply sameSession_refl|]. simpl.
  destruct (OpenFile_append _ _) as [[file|e] fs1]; [|repeat split].
  destruct (WriteString _ _ _). repeat split.
Qed.

Lemma mergeMessages_sameSession (m : model) (batch : list Message) :
  sameSession m (mergeMessages m batch).
Proof.
  rewrite mergeMessages_spec. destruct (hasNew m batch); repeat split.
Qed.

Lemma Update_sameSession (m : model) (msg : Msg) (fs : FileSystem) :
  sameSession m (Update m msg fs).1.1.
Proof.
  destruct msg as [[| | | | |code] runes|w h| |t|[batch|] [e|]|[e|]|n]; simpl;
    try apply sameSession_refl; try (repeat split; fail);
    try apply updateWidgets_sameSession;
    try apply navigateHistory_sameSession.
  - destruct (nonempty _); [|apply updateWidgets_sameSession].
    pose proof (appendToHistory_sameSession m (input_Value (input m)) fs)
      as Ha.
    destruct (appendToHistory _ _ _) as [[m0 e] fs0]. simpl in Ha |- *.
    eapply sameSession_trans; [exact Ha|].
    eapply sameSession_trans; [|apply updateWidgets_sameSession].
    destruct e; repeat split.
  - eapply sameSession_trans; [|apply updateWidgets_sameSession].
    destruct (ready m); repeat split.
  - apply (updateWidgets_sameSession (updateViewportContent m)).
  - eapply sameSession_trans; [|apply updateWidgets_sameSession].
    apply mergeMessages_sameSession.
Qed.

Lemma run_sameSession (msgs : list Msg) (m : model) (fs : FileSystem) :
  sameSession m (run m msgs fs).1.
Proof.
  revert m fs. induction msgs as [|msg rest IH]; intros m fs; simpl.
  - apply sameSession_refl.
  - pose proof (Update_sameSession m msg fs) as Hu.
    destruct (Update m msg fs) as [[m1 c] fs1]. simpl in Hu.
    eapply sameSession_trans; [exact Hu | apply IH].
Qed.

(** X19. Over any sequence of events the channel id, the channel name
    and the history file's name stay what the session was started with,
    and the [needsRedraw] flag is never assigned. *)
Theorem session_identity_fixed (channel name file : string)
    (ti : textinput_Model) (vp : viewport_Model) (lines : list string)
    (msgs : list Msg) (fs : FileSystem) :
  let m := (run (initialModel channel name file ti vp lines) msgs fs).1 in
  channelID m = channel /\ channelName m = name /\ historyFile m = file
  /\ needsRedraw m = false.
Proof.
  intros m. subst m.
  exact (run_sameSession msgs (initialModel channel name file ti vp lines) fs).
Qed.

Lemma updateWidgets_viewport (m : model) (cmds : list Cmd) (msg : Msg) :
  viewport (updateWidgets m cmds msg).1 = (viewport_Update (viewport m) msg).1
  /\ messages (updateWidgets m cmds msg).1 = messages m.
Proof.
  unfold updateWidgets.
  destruct (input_Update _ _), (viewport_Update _ _). split; reflexivity.
Qed.

Lemma navigateHistory_viewport (m : model) (d : Z) :
  viewport (navigateHistory m d) = viewport m.
Proof.
  unfold navigateHistory.
  destruct (negb _); [|reflexivity]. simpl.
  destruct (_ =? _); [reflexivity|]. destruct (0 <? _); [|reflexivity].
  destruct (index _ _); reflexivity.
Qed.

Lemma appendToHistory_viewport (m : model) (s : string) (fs : FileSystem) :
  viewport (appendToHistory m s fs).1.1 = viewport m.
Proof.
  unfold appendToHistory.
  destruct (negb _); [reflexivity|].
  destruct (lastIs _ _); [reflexivity|]. simpl.
  destruct (OpenFile_append _ _) as [[file|e] fs1]; [|reflexivity].
  destruct (WriteString _ _ _). reflexivity.
Qed.

Lemma updateViewportContent_viewport (m : model) :
  viewport (updateViewportContent m)
  = viewport_GotoBottom (viewport_SetContent (rendered (messages m))
                           (viewport m))
  /\ messages (updateViewportContent m) = messages m.
Proof. split; reflexivity. Qed.

(** X20. The viewport never shows a stale store.  An event that changes
    the stored messages is one of those on which [Update] redraws; on
    these (a window size, a redraw request, a fetch that brings a new
    message) the viewport is given the rendering of the messages as they
    are after the event, is scrolled to the bottom, and only then sees the
    event.  On every other event the content is not set: the viewport is
    the old one, or what the old one made of the event. *)
Theorem viewport_redrawn_with_store (m : model) (msg : Msg)
    (fs : FileSystem) :
  let m' := (Update m msg fs).1.1 in
  (messages m' <> messages m -> redraws m msg = true)
  /\ (redraws m msg = true ->
        exists vp0,
          viewport m' =
            (viewport_Update
               (viewport_GotoBottom
                  (viewport_SetContent (rendered (messages m')) vp0))
               msg).1)
  /\ (redraws m msg = false ->
        viewport m' = viewport m
        \/ viewport m' = (viewport_Update (viewport m) msg).1).
Proof.
  intros m'. subst m'. split; [|split].
  - intros Hne. destruct (redraws m msg) eqn:Hr; [reflexivity|].
    exfalso. apply Hne.
    pose proof (Update_store m msg fs) as (Hs & _).
    rewrite Hs.
    destruct msg as [k r|w h| |t|[batch|] [e|]|[e|]|n]; try reflexivity.
    simpl in Hr. rewrite mergeMessages_fixed by exact Hr. reflexivity.
  - destruct msg as [k r|w h| |t|[batch|] [e|]|[e|]|n]; try discriminate;
      simpl; intros Hr.
    + match goal with
      | |- context [updateWidgets (updateViewportContent ?a) ?b ?c] =>
          destruct (updateWidgets_viewport (updateViewportContent a) b c)
            as [-> ->];
          destruct (updateViewportContent_viewport a) as [-> ->];
          exists (viewport a)
      end.
      first [reflexivity | destruct (ready m); reflexivity].
    + destruct (updateWidgets_viewport (updateViewportContent m) []
                  redrawViewportMsg) as [-> ->].
      exists (viewport m). reflexivity.
    + destruct (updateWidgets_viewport (mergeMessages m batch) []
                  (fetchMessagesMsg (Some batch) None)) as [-> ->].
      rewrite mergeMessages_spec, Hr.
      eexists. reflexivity.
  - destruct msg as [[| | | | |code] runes|w h| |t|[batch|] [e|]|[e|]|n];
      try discriminate; simpl; intros Hr;
      try (left; reflexivity);
      try (right; apply updateWidgets_viewport).
    + destruct (nonempty _); [|right; apply updateWidgets_viewport].
      pose proof (appendToHistory_viewport m (input_Value (input m)) fs)
        as Ha.
      destruct (appendToHistory _ _ _) as [[m0 e] fs0]. simpl in Ha |- *.
      right.
      match goal with
      | |- context [updateWidgets ?a ?b ?c] =>
          destruct (updateWidgets_viewport a b c) as [-> _]
      end.
      destruct e; simpl; rewrite Ha; reflexivity.
    + left. apply navigateHistory_viewport.
    + left. apply navigateHistory_viewport.
    + right.
      destruct (updateWidgets_viewport (mergeMessages m batch) []
                  (fetchMessagesMsg (Some batch) None)) as [-> _].
      rewrite mergeMessages_fixed by exact Hr. reflexivity.
Qed.

(** X21. The error field is assigned from three places only: a fetch
    that failed, a send that failed, and the history write of an accepted
    input line that failed; it then holds that error.  Nothing else is
    recorded: a fetch that succeeded leaves the field alone whatever
    became of the user names and the timestamps of its messages. *)
Theorem error_recorded_only_from_io (m : model) (msg : Msg)
    (fs : FileSystem) :
  let m' := (Update m msg fs).1.1 in
  err m' = err m
  \/ (exists ms e, msg = fetchMessagesMsg ms (Some e) /\ err m' = Some e)
  \/ (exists e, msg = sendMessageMsg (Some e) /\ err m' = Some e)
  \/ (exists e, acceptedSubmit m msg
        /\ (appendToHistory m (input_Value (input m)) fs).1.2 = Some e
        /\ err m' = Some e).
Proof.
  intros m'. subst m'.
  destruct msg as [[| | | | |code] runes|w h| |t|[batch|] [e|]|[e|]|n]; simpl;
    try (left; reflexivity);
    try (left; etransitivity; [apply updateWidgets_fields|]; reflexivity);
    try (right; left; eexists _, _; split; reflexivity);
    try (right; right; left; eexists; split; reflexivity).
  - destruct (nonempty _) eqn:Hb;
      [|left; etransitivity; [apply updateWidgets_fields|]; reflexivity].
    apply nonempty_true in Hb.
    destruct (appendToHistory_cases m (input_Value (input m)) fs)
      as [(Hr & _)|(_ & Hd & _)].
    + left. rewrite Hr.
      etransitivity; [apply updateWidgets_fields|]. reflexivity.
    + pose proof (appendToHistory_ready_err m (input_Value (input m)) fs)
        as [_ He].
      destruct (appendToHistory _ _ _) as [[m0 e] fs0] eqn:Ha.
      simpl in He. destruct e as [e|].
      * right. right. right. exists e.
        split; [exists runes; split; [reflexivity|]; split;
                  [exact Hb | exact Hd]|].
        split; [reflexivity|].
        etransitivity; [apply updateWidgets_fields|]. reflexivity.
      * left. etransitivity; [apply updateWidgets_fields|]. exact He.
  - left. apply navigateHistory_ready_err.
  - left. apply navigateHistory_ready_err.
  - left. etransitivity; [apply updateWidgets_fields|].
    destruct (ready m); reflexivity.
  - left. etransitivity; [apply updateWidgets_fields|].
    apply mergeMessages_sameLog.
Qed.

End Session.

(* --------------------------------------------------------------------- *)
(** ** The session's commands *)
(* --------------------------------------------------------------------- *)

Section Commands.

Context {F : Foreign} {ops : ForeignOps} {iops : InitOps}.

Lemma targets_Batch (l : list Cmd) :
  targets (cmd_Batch l) = flat_map targets l.
Proof.
  simpl. induction l as [|c r IH]; [reflexivity|].
  simpl. rewrite IH. reflexivity.
Qed.

Lemma updateWidgets_targets (m : model) (cmds : list Cmd) (msg : Msg) :
  foreignQuiet ->
  targets (updateWidgets m cmds msg).2 = flat_map targets cmds.
Proof.
  intros (_ & _ & Hi & Hv). unfold updateWidgets.
  pose proof (Hi (input m) msg) as Hi'.
  destruct (input_Update (input m) msg) as [ti tiCmd]. simpl in Hi'.
  pose proof (Hv (viewport (set_input m ti)) msg) as Hv'.
  destruct (viewport_Update _ msg) as [vp vpCmd]. simpl in Hv'.
  cbn [snd]. rewrite targets_Batch, flat_map_app. simpl.
  rewrite Hi', Hv'. simpl. apply app_nil_r.
Qed.

Lemma Update_targets (m : model) (msg : Msg) (fs : FileSystem) :
  foreignQuiet ->
  Forall (eq (channelID m)) (targets (Update m msg fs).1.2).
Proof.
  intros Hq.
  destruct msg as [[| | | | |code] runes|w h| |t|[batch|] [e|]|[e|]|n]; simpl;
    rewrite ?updateWidgets_targets by exact Hq; simpl;
    repeat constructor.
  destruct (nonempty _); simpl;
    [|rewrite updateWidgets_targets by exact Hq; constructor].
  pose proof (appendToHistory_sameSession m (input_Value (input m)) fs)
    as (Hc & _).
  destruct (appendToHistory _ _ _) as [[m0 e] fs0]. simpl in Hc |- *.
  rewrite updateWidgets_targets by exact Hq. simpl.
  destruct e; simpl; rewrite Hc; repeat constructor.
Qed.

(** X22. Every fetch and every send a session launches is addressed to
    the channel it was started with: those of [Init], whose fetch asks
    for the most recent page, and those [Update] returns after any
    sequence of events.  The commands of the runtime and of the widgets
    are taken not to be fetches or sends. *)
Theorem commands_address_session_channel (channel name file : string)
    (ti : textinput_Model) (vp : viewport_Model) (lines : list string)
    (msgs : list Msg) (fs : FileSystem) :
  foreignQuiet ->
  let m0 := initialModel channel name file ti vp lines in
  Init m0 = cmd_Batch [EnterAltScreen; cmd_fetchMessages channel "";
                       textinput_Blink; cmd_tick]
  /\ Forall (eq channel) (targets (Init m0))
  /\ forall msg fs',
       Forall (eq channel) (targets (Update (run m0 msgs fs).1 msg fs').1.2).
Proof.
  intros Hq m0. split; [reflexivity|]. split.
  - destruct Hq as (He & Hb & _). unfold Init. rewrite targets_Batch. simpl.
    rewrite He, Hb. simpl. repeat constructor.
  - intros msg fs'.
    destruct (run_sameSession msgs m0 fs) as (Hc & _).
    pose proof (Update_targets (run m0 msgs fs).1 msg fs' Hq) as Ht.
    rewrite Hc in Ht. exact Ht.
Qed.

End Commands.

(* --------------------------------------------------------------------- *)
(** ** The statements above, run on the stand-ins *)
(* --------------------------------------------------------------------- *)

Lemma demo_fs_spec (tiesFirst : bool) :
  @FileSystemSpec Demo.foreign (Demo.ops tiesFirst) DemoRest.startOps.
Proof.
  split.
  - intros name [files fault] file fs1 s fs2. simpl.
    destruct fault as [e|]; [discriminate|].
    intros [= <- <-] [= <-]. unfold fileContent. simpl.
    rewrite !lookup_insert_eq. simpl.
    destruct (files !! name) eqn:E; simpl; rewrite ?E; reflexivity.
  - intros dir fs name. reflexivity.
Qed.

Lemma clean_hello : cleanLine "hello".
Proof.
  split; [|split; [discriminate | reflexivity]].
  refine (bool_decide_unpack _ _). vm_compute. exact I.
Qed.

(** X3, on a history of one entry that gets a second. *)
Lemma no_repeats_kept_witness :
  let m := @set_input Demo.foreign (Demo.start ["a"]%string) "b"%string in
  noRepeats
    (history
       (@run Demo.foreign (Demo.ops true) m
          [@KeyMsg Demo.foreign KeyEnter ""] Demo.noFiles).1).
Proof.
  intros m. apply (@no_repeats_kept Demo.foreign (Demo.ops true)).
  intros i a b Ha Hb. destruct i; discriminate.
Defined.

(** X5, on a tick. *)
Lemma store_frame_witness :
  let m := Demo.start [] in
  sameStore m
    (@Update Demo.foreign (Demo.ops true) m (@tickMsg Demo.foreign 0)
       Demo.noFiles).1.1.
Proof.
  intros m. apply (@store_frame Demo.foreign (Demo.ops true)).
  intros batch Hb. discriminate.
Defined.

(** X6, on two fetches that overlap. *)
Lemma stored_ids_unique_after_run_witness :
  NoDup
    (storedIds
       (@run Demo.foreign (Demo.ops true) (Demo.start [])
          [Demo.fetched [("7.5", "c"); ("3.25", "a"); ("7.5", "c")];
           Demo.fetched [("5.0", "b"); ("3.25", "a")]]%string
          Demo.noFiles).1).
Proof.
  apply (@stored_ids_unique_after_run Demo.foreign (Demo.ops true)
           (demo_sort_spec true)).
Defined.

(** X7, on a fetch followed by one that brings nothing new. *)
Lemma cursor_is_stored_id_after_run_witness :
  let m := (@run Demo.foreign (Demo.ops true) (Demo.start [])
              [Demo.fetched [("2", "b"); ("1", "a")];
               Demo.fetched [("1", "a")]]%string Demo.noFiles).1 in
  lastFetched m = ""%string
  \/ exists fm, fm ∈ messages m /\ id fm = lastFetched m.
Proof.
  apply (@cursor_is_stored_id_after_run Demo.foreign (Demo.ops true)
           (demo_sort_spec true)).
Defined.

(** X8, on a stored message and a later fetch. *)
Lemma stored_messages_kept_witness :
  let m := (@run Demo.foreign (Demo.ops true) (Demo.start [])
              [Demo.fetched [("1", "a")]%string] Demo.noFiles).1 in
  mkFormatted "12:00:00 user: a" 62135596801 "1"
  ∈ messages
      (@run Demo.foreign (Demo.ops true) m
         [Demo.fetched [("2", "b")]%string] Demo.noFiles).1.
Proof.
  intros m.
  apply (@stored_messages_kept Demo.foreign (Demo.ops true)
           (demo_sort_spec true)).
  vm_compute. constructor.
Defined.

(** X9, on a ready session with an error and a fetch that succeeds. *)
Lemma error_screen_is_permanent_witness :
  let m := @set_err Demo.foreign
             (@set_ready Demo.foreign (Demo.start []) true)
             (Some "boom"%string) in
  exists e',
    err (@run Demo.foreign (Demo.ops true) m
           [Demo.fetched [("1", "a")]%string] Demo.noFiles).1 = Some e'
    /\ @View Demo.foreign DemoRest.viewOps
         (@run Demo.foreign (Demo.ops true) m
            [Demo.fetched [("1", "a")]%string] Demo.noFiles).1
       = @errorScreen Demo.foreign DemoRest.viewOps e'.
Proof.
  intros m.
  apply (@error_screen_is_permanent Demo.foreign (Demo.ops true)
           DemoRest.viewOps m "boom"%string); reflexivity.
Defined.

(** X11, after the window's size and one step back in a history of two. *)
Lemma history_indicator_in_range_witness :
  let m := (@run Demo.foreign (Demo.ops true)
              (@initialModel Demo.foreign "C1" "general" "/h" ""%string
                 ""%string ["a"; "b"]%string)
              [@WindowSizeMsg Demo.foreign 80 24;
               @KeyMsg Demo.foreign KeyUp ""] Demo.noFiles).1 in
  1 <= historyIndex m + 1 <= len (history m).
Proof.
  apply (@history_indicator_in_range Demo.foreign (Demo.ops true)
           DemoRest.viewOps "C1" "general" "/h" ""%string ""%string
           ["a"; "b"]%string).
  - vm_compute. discriminate.
  - vm_compute. reflexivity.
  - vm_compute. reflexivity.
  - vm_compute. reflexivity.
Defined.

(** X13, on the first line of a new history file. *)
Lemma history_file_mirrors_memory_witness :
  let m := @set_input Demo.foreign
             (@initialModel Demo.foreign "C1" "general" DemoRest.historyFile
                ""%string ""%string [])
             "hello"%string in
  let r := @Update Demo.foreign (Demo.ops true) m
             (@KeyMsg Demo.foreign KeyEnter "") Demo.noFiles in
  @loadHistory Demo.foreign DemoRest.startOps (historyFile r.1.1) r.2
  = history r.1.1.
Proof.
  intros m.
  apply (@history_file_mirrors_memory Demo.foreign (Demo.ops true)
           DemoRest.startOps (demo_fs_spec true) m
           (@KeyMsg Demo.foreign KeyEnter "") Demo.noFiles).
  - split; [constructor|]. right. split; reflexivity.
  - intros _. split; [exact clean_hello | reflexivity].
Defined.

(** X15, on the file that session left. *)
Lemma restart_loads_history_witness :
  let m := @initialModel Demo.foreign "C1" "general" DemoRest.historyFile
             ""%string ""%string ["hello"]%string in
  let fs := DemoRest.diskWith (encodeLines ["hello"]%string) in
  exists m0,
    (@startSession Demo.foreign (Demo.ops true) DemoRest.startOps "C1" fs).1
    = inl m0
    /\ history m0 = history m.
Proof.
  intros m fs.
  destruct (@restart_loads_history Demo.foreign (Demo.ops true)
              DemoRest.startOps (demo_fs_spec true) m "C1" "/home/u" fs)
    as (m0 & H0 & Hh & _).
  - split; [constructor; [exact clean_hello | constructor]|].
    left. vm_compute. reflexivity.
  - reflexivity.
  - reflexivity.
  - reflexivity.
  - exists m0. auto.
Defined.

(** X16, on a client whose pages are nil. *)
Lemma nil_page_refetches_witness :
  let m := Demo.start [] in
  let c := @cmd_fetchMessages Demo.foreign "C1" "" in
  exists msg,
    @deliver Demo.foreign DemoRest.clientOps 0 c = Some msg
    /\ @Update Demo.foreign (Demo.ops true) m msg Demo.noFiles
       = (m, c, Demo.noFiles).
Proof.
  apply (@nil_page_refetches Demo.foreign (Demo.ops true) DemoRest.clientOps
           (Demo.start []) Demo.noFiles 0).
  reflexivity.
Defined.

(** X17, on a line that repeats the last entry. *)
Lemma submit_sends_then_refreshes_witness :
  let m := @set_input Demo.foreign (Demo.start ["a"]%string) "a"%string in
  exists send refresh others,
    (@Update Demo.foreign (Demo.ops true) m
       (@KeyMsg Demo.foreign KeyEnter "") Demo.noFiles).1.2
    = cmd_Batch (cmd_Sequence [send; refresh] :: others)
    /\ @deliver Demo.foreign DemoRest.clientOps 0 send
       = Some (@sendMessage Demo.foreign DemoRest.clientOps "C1" "a").
Proof.
  intros m.
  destruct (@submit_sends_then_refreshes Demo.foreign (Demo.ops true)
              DemoRest.clientOps m "" Demo.noFiles 0)
    as (send & refresh & others & Hc & _ & Hs & _).
  - vm_compute. discriminate.
  - exists send, refresh, others. auto.
Defined.

(** X4, on a first line submitted. *)
Lemma log_and_files_frame_witness :
  let m := @set_input Demo.foreign (Demo.start []) "hello"%string in
  let r := @Update Demo.foreign (Demo.ops true) m
             (@KeyMsg Demo.foreign KeyEnter "") Demo.noFiles in
  history r.1.1 = history m ++ ["hello"%string]
  /\ historyIndex r.1.1 = len (history r.1.1)
  /\ browsingHist r.1.1 = false.
Proof.
  intros m.
  apply (@log_and_files_frame Demo.foreign (Demo.ops true) m
           (@KeyMsg Demo.foreign KeyEnter "") Demo.noFiles).
  exists ""%string. split; [reflexivity|].
  split; vm_compute; discriminate.
Defined.

(** X10, on a session that was sent a fetch and a tick, no size. *)
Lemma placeholder_until_window_size_witness :
  @View Demo.foreign DemoRest.viewOps
    (@run Demo.foreign (Demo.ops true)
       (@initialModel Demo.foreign "C1" "general" "/h" ""%string ""%string [])
       [Demo.fetched [("1", "a")]%string; @tickMsg Demo.foreign 0]
       Demo.noFiles).1
  = "Initializing..."%string.
Proof.
  apply (@placeholder_until_window_size Demo.foreign (Demo.ops true)
           DemoRest.viewOps "C1" "general" "/h" ""%string ""%string []).
  reflexivity.
Defined.

(** X12, on Esc. *)
Lemma quits_on_esc_and_ctrl_c_only_witness :
  @Update Demo.foreign (Demo.ops true) (Demo.start [])
    (@KeyMsg Demo.foreign KeyEsc "") Demo.noFiles
  = (Demo.start [], cmd_Quit, Demo.noFiles).
Proof.
  apply (@quits_on_esc_and_ctrl_c_only Demo.foreign (Demo.ops true)).
  reflexivity.
Defined.

(** X14, on a disk without a history file. *)
Lemma start_fails_only_without_directory_witness :
  let r := @startSession Demo.foreign (Demo.ops true) DemoRest.startOps "C1"
             Demo.noFiles in
  exists m, r.1 = inl m /\ history m = [] /\ cursorInRange m.
Proof.
  intros r.
  destruct (@start_fails_only_without_directory Demo.foreign (Demo.ops true)
              DemoRest.startOps "C1" Demo.noFiles) as [_ Hok].
  eexists. split; [reflexivity|].
  destruct (Hok _ eq_refl) as (_ & _ & _ & Hempty & Hc & _).
  split; [apply Hempty; reflexivity | exact Hc].
Defined.

(** X19, on a session that was sent its window size and a fetch. *)
Lemma session_identity_fixed_witness :
  let m := (@run Demo.foreign (Demo.ops true) (Demo.start [])
              [@WindowSizeMsg Demo.foreign 80 24;
               Demo.fetched [("1", "a")]%string] Demo.noFiles).1 in
  channelID m = "C1"%string /\ channelName m = "general"%string
  /\ historyFile m = "/h"%string /\ needsRedraw m = false.
Proof.
  apply (@session_identity_fixed Demo.foreign (Demo.ops true)).
Defined.

(** X20, on a fetch that brings two messages, the later one first. *)
Lemma viewport_redrawn_with_store_witness :
  let msg := Demo.fetched [("2", "b"); ("1", "a")]%string in
  let m' := (@Update Demo.foreign (Demo.ops true) (Demo.start []) msg
               Demo.noFiles).1.1 in
  rendered (messages m')
  = ("12:00:00 user: a" +:+ newline +:+ "12:00:00 user: b" +:+ newline)%string
  /\ exists vp0,
       viewport m' =
         (@viewport_Update Demo.foreign (Demo.ops true)
            (@viewport_GotoBottom Demo.foreign (Demo.ops true)
               (@viewport_SetContent Demo.foreign (Demo.ops true)
                  (rendered (messages m')) vp0))
            msg).1.
Proof.
  intros msg m'. split; [reflexivity|].
  apply (@viewport_redrawn_with_store Demo.foreign (Demo.ops true)
           (Demo.start []) msg Demo.noFiles).
  reflexivity.
Defined.

(** X21, on Enter with a disk that refuses the write. *)
Lemma error_recorded_only_from_io_witness :
  let m := @set_input Demo.foreign (Demo.start []) "hello"%string in
  let msg := @KeyMsg Demo.foreign KeyEnter ""%string in
  let m' := (@Update Demo.foreign (Demo.ops true) m msg Demo.brokenDisk).1.1 in
  err m' = Some "read-only file system"%string
  /\ (err m' = err m
      \/ (exists ms e, msg = fetchMessagesMsg ms (Some e) /\ err m' = Some e)
      \/ (exists e, msg = sendMessageMsg (Some e) /\ err m' = Some e)
      \/ (exists e, @acceptedSubmit Demo.foreign (Demo.ops true) m msg
            /\ (@appendToHistory Demo.foreign (Demo.ops true) m
                  (@input_Value Demo.foreign (Demo.ops true) (input m))
                  Demo.brokenDisk).1.2 = Some e
            /\ err m' = Some e)).
Proof.
  intros m msg m'. split; [reflexivity|].
  apply (@error_recorded_only_from_io Demo.foreign (Demo.ops true) m msg
           Demo.brokenDisk).
Defined.

(** X22, on Enter after a step back in a history of one. *)
Lemma commands_address_session_channel_witness :
  let m0 := Demo.start ["hi"]%string in
  let m := (@run Demo.foreign (Demo.ops true) m0
              [@KeyMsg Demo.foreign KeyUp ""%string] Demo.noFiles).1 in
  @foreignQuiet Demo.foreign (Demo.ops true) DemoRest.initOps
  /\ @targets Demo.foreign
       (@Update Demo.foreign (Demo.ops true) m
          (@KeyMsg Demo.foreign KeyEnter ""%string) Demo.noFiles).1.2
     = ["C1"%string]
  /\ Forall (eq "C1"%string)
       (@targets Demo.foreign
          (@Update Demo.foreign (Demo.ops true) m
             (@KeyMsg Demo.foreign KeyEnter ""%string) Demo.noFiles).1.2).
Proof.
  intros m0 m.
  assert (Hq : @foreignQuiet Demo.foreign (Demo.ops true) DemoRest.initOps).
  { split; [reflexivity|]. split; [reflexivity|]. split; reflexivity. }
  split; [exact Hq|]. split; [reflexivity|].
  apply (@commands_address_session_channel Demo.foreign (Demo.ops true)
           DemoRest.initOps "C1" "general" "/h" ""%string ""%string
           ["hi"%string] [@KeyMsg Demo.foreign KeyUp ""%string]
           Demo.noFiles Hq).
Defined.
